(** * Sudoku as graph colouring: encoding, decoding and scoring

    A shallow embedding of [sudoku/sudoku.py] (the 9x9 solver) and
    [sudoku/sudoku4.py] (the 4x4 solver), followed by the properties of the
    encoding / decoding / scoring pipeline.

    Python integers are [Z]: [//] is [Z.div] and [%] is [Z.modulo] (both
    floor towards minus infinity, like Python), [&] is [Z.land].  Python
    dictionaries are stdpp [gmap]s, Python sets are [gset]s, lists are
    lists.  A raised exception is the left injection of a sum. *)

From Stdlib Require Import ZArith List Ascii String Lia Permutation.
From stdpp Require Import base decidable countable gmap sets list strings.

Local Open Scope Z_scope.

(** ** The fragment of the Python runtime the two programs rely on *)

Module Py.

(** Exceptions the programs can raise. *)
Inductive exn : Set :=
| KeyError
| IndexError
| ValueError.

(** A computation that returns a value or raises. *)
Definition result (A : Type) : Type := (exn + A)%type.

Definition raise {A} (e : exn) : result A := inl e.

#[global] Instance result_ret : MRet result := λ A a, inr a.
#[global] Instance result_bind : MBind result := λ A B k m,
  match m with
  | inl e => inl e
  | inr a => k a
  end.

(** [range(n)] and [range(start, stop, step)] for a positive step. *)
Definition range (n : Z) : list Z := seqZ 0 n.
Definition range_step (start stop step : Z) : list Z :=
  (λ k, start + k * step) <$> seqZ 0 ((stop - start + step - 1) / step).

(** [itertools.combinations(l, 2)]: the pairs of elements at positions
    [p < q], in lexicographic order of the positions. *)
Fixpoint combinations2 {A} (l : list A) : list (A * A) :=
  match l with
  | [] => []
  | x :: t => map (pair x) t ++ combinations2 t
  end.

(** [l[i]] on a list, negative indices counting from the end. *)
Definition getitem {A} (l : list A) (i : Z) : result A :=
  let k := if i <? 0 then i + Z.of_nat (length l) else i in
  if k <? 0 then raise IndexError
  else match l !! Z.to_nat k with
       | Some x => mret x
       | None => raise IndexError
       end.

(** [l[i:j]] for [0 <= i <= j]. *)
Definition slice {A} (l : list A) (i j : Z) : list A :=
  take (Z.to_nat (j - i)) (drop (Z.to_nat i) l).

(** [d[k]] and [d.get(k, dflt)] on a dictionary. *)
Definition dict_getitem `{Countable K} {V} (d : gmap K V) (k : K) : result V :=
  match d !! k with
  | Some v => mret v
  | None => raise KeyError
  end.
Definition dict_get `{Countable K} {V} (d : gmap K V) (k : K) (dflt : V) : V :=
  default dflt (d !! k).

(** [sum(l)] of integers; a Python [bool] counts as 0 or 1. *)
Definition sum (l : list Z) : Z := foldl Z.add 0 l.

(** Characters are code points below 256 ([ascii] read as Latin-1).
    On that range [str.isdigit] accepts the ten decimal digits and the
    superscripts U+00B2, U+00B3 and U+00B9, while [int] of a
    one-character string accepts the ten decimal digits only. *)
Definition ord (c : ascii) : Z := Z.of_N (N_of_ascii c).

Definition isdecimal (c : ascii) : bool := (48 <=? ord c) && (ord c <=? 57).

Definition isdigit (c : ascii) : bool :=
  isdecimal c || (ord c =? 178) || (ord c =? 179) || (ord c =? 185).

Definition int (c : ascii) : result Z :=
  if isdecimal c then mret (ord c - 48) else raise ValueError.

(** Colour labels handed back by a colouring oracle: the two oracles
    return integers, the decoder's sentinel is a string. *)
Inductive label : Set :=
| LInt (n : Z)
| LStr (s : string).

#[global] Instance label_eq_dec : EqDecision label.
Proof. solve_decision. Defined.

#[global] Instance label_countable : Countable label.
Proof.
  refine (inj_countable'
    (λ l, match l with LInt n => inl n | LStr s => inr s end)
    (λ x, match x with inl n => LInt n | inr s => LStr s end) _).
  by intros [].
Defined.

End Py.

(** A clue is a pair [(cell index, value)]. *)
Abbreviation clue := (Z * Z)%type.

(** ** networkx: an undirected simple graph with self-loops allowed *)

Module Nx.

(** The undirected edge [u - v] is stored once, smaller end first. *)
Definition edge (u v : Z) : Z * Z := (Z.min u v, Z.max u v).

Record Graph : Type := mkGraph { nodes : gset Z; edges : gset (Z * Z) }.

(** [nx.Graph()] *)
Definition empty : Graph := mkGraph ∅ ∅.

(** [G.add_edge(u, v)] adds both ends as nodes; adding an edge twice
    changes nothing. *)
Definition add_edge (u v : Z) (G : Graph) : Graph :=
  mkGraph ({[u; v]} ∪ nodes G) ({[edge u v]} ∪ edges G).

(** [G.add_edges_from(es)] *)
Definition add_edges_from (es : list (Z * Z)) (G : Graph) : Graph :=
  foldl (λ G e, add_edge e.1 e.2 G) G es.

(** [G.has_edge(u, v)] *)
Definition has_edge (G : Graph) (u v : Z) : Prop := edge u v ∈ edges G.

(** [nx.number_of_selfloops(G) == 0] *)
Definition no_selfloops (G : Graph) : Prop := ∀ u, ¬ has_edge G u u.

(** [G.number_of_edges()] *)
Definition number_of_edges (G : Graph) : nat := size (edges G).

End Nx.

(** ** sudoku.py *)

Module Sudoku.

(** [adjacent(i, j)] *)
Definition adjacent (i j : Z) : bool :=
  negb (i =? j) &&
  ((i / 9 =? j / 9) || (i mod 9 =? j mod 9) ||
   ((i / 27 =? j / 27) && (i mod 9 / 3 =? j mod 9 / 3))).

(** The loop of [make_sudoku_graph] over the pairs of clues. *)
Definition add_clue_edges (clues : list clue) (G : Nx.Graph) : Nx.Graph :=
  foldl (λ G (cc : clue * clue),
           let (c1, c2) := cc in
           if negb (c1.2 =? c2.2) then Nx.add_edge c1.1 c2.1 G else G)
        G (Py.combinations2 clues).

(** [make_sudoku_graph(clues)] *)
Definition make_sudoku_graph (clues : list clue) : Nx.Graph :=
  let G := Nx.empty in
  let edges :=
    List.filter (λ e : Z * Z, adjacent e.1 e.2)
                (Py.combinations2 (Py.range 81)) in
  let G := Nx.add_edges_from edges G in
  add_clue_edges clues G.

(** The dictionary comprehension of [decode]:
    [{coloring[x]: y for x, y in clues if x in coloring}];
    a later entry with the same key overwrites the earlier one. *)
Definition decode_lookup (coloring : gmap Z Py.label) (clues : list clue)
  : gmap Py.label Z :=
  foldl (λ (acc : gmap Py.label Z) (c : clue),
           match coloring !! c.1 with
           | Some col => <[col := c.2]> acc
           | None => acc
           end)
        ∅ clues.

(** The default of [coloring.get] in [decode]. *)
Definition sentinel : Py.label := Py.LStr "?".

(** [decode(coloring, clues)] *)
Definition decode (coloring : gmap Z Py.label) (clues : list clue) : list Z :=
  let lookup_tbl := decode_lookup coloring clues in
  (λ i, Py.dict_get lookup_tbl (Py.dict_get coloring i sentinel) 9)
    <$> Py.range 81.

(** The list comprehension of [make_clues], [i] being the index of the
    first character of [board]. *)
Fixpoint real_clues (i : Z) (board : list ascii) : Py.result (list clue) :=
  match board with
  | [] => mret []
  | x :: rest =>
      if Py.isdigit x && negb (Ascii.eqb x "0")
      then v ← Py.int x; cs ← real_clues (i + 1) rest; mret ((i, v) :: cs)
      else real_clues (i + 1) rest
  end.

Section SetIteration.

(** The order in which Python iterates over a set of integers is left
    to the interpreter. *)
Variable set_iter : gset Z → list Z.

(** [make_clues(board)] *)
Definition make_clues (board : string) : Py.result (list clue) :=
  clues ← real_clues 0 (list_ascii_of_string board);
  let missing : gset Z :=
    list_to_set (Py.range_step 1 10 1) ∖ list_to_set (clues.*2) in
  mret (clues ++ imap (λ i j, (81 + Z.of_nat i, j)) (set_iter missing)).

End SetIteration.

(** [cost(a)] *)
Definition cost (a : list Z) : Py.result Z :=
  terms ← mapM (λ e : Z * Z,
                  x ← Py.getitem a e.1;
                  y ← Py.getitem a e.2;
                  mret (Z.b2z (x =? y)))
               (List.filter (λ e : Z * Z, adjacent e.1 e.2)
                            (Py.combinations2 (Py.range 81)));
  mret (Py.sum terms).

(** [disp(solution)]: the rows written to standard output. *)
Definition disp (solution : list Z) : list (list Z) :=
  (λ i, Py.slice solution i (i + 9)) <$> Py.range_step 0 81 9.

Section Solve.

(** [solve] depends on the order of set iteration and on the two
    colouring oracles, which are external:
    [nx.coloring.greedy_color(G, strategy)] and
    [dnx.min_vertex_coloring(G, sampler, chromatic_lb, chromatic_ub,
    max_iter, convergence)].  A call of an oracle is modelled by the
    colouring it returns. *)
Variable set_iter : gset Z → list Z.
Variable greedy_color : Nx.Graph → string → gmap Z Py.label.
Variable min_vertex_coloring :
  Nx.Graph → option Z → option Z → Z → Z → gmap Z Py.label.

(** [solve(grid, use_dwave, max_iter, convergence)]: the rows and the cost
    it prints, or the exception. *)
Definition solve (grid : string) (use_dwave : bool) (max_iter convergence : Z)
  : Py.result (list (list Z) * Z) :=
  clues ← make_clues set_iter grid;
  let G := make_sudoku_graph clues in
  let coloring :=
    if use_dwave
    then min_vertex_coloring G (Some 9) (Some 9) max_iter convergence
    else greedy_color G "saturation_largest_first" in
  let solution := decode coloring clues in
  let rows := disp solution in
  c ← cost solution;
  mret (rows, c).

End Solve.

End Sudoku.

(** ** sudoku4.py *)

Module Sudoku4.

(** [adjacent(i, j)]; in Python [&] binds tighter than [==]. *)
Definition adjacent (i j : Z) : bool :=
  negb (i =? j) &&
  existsb (λ k, Z.land i k =? Z.land j k) [3; 10; 12].

(** The loop of [make_sudoku_graph] over the pairs of clues. *)
Definition add_clue_edges (clues : list clue) (G : Nx.Graph) : Nx.Graph :=
  foldl (λ G (cc : clue * clue),
           let (c1, c2) := cc in
           if negb (c1.2 =? c2.2) then Nx.add_edge c1.1 c2.1 G else G)
        G (Py.combinations2 clues).

(** [make_sudoku_graph(clues)] *)
Definition make_sudoku_graph (clues : list clue) : Nx.Graph :=
  let G := Nx.empty in
  let edges :=
    List.filter (λ e : Z * Z, adjacent e.1 e.2)
                (Py.combinations2 (Py.range 16)) in
  let G := Nx.add_edges_from edges G in
  add_clue_edges clues G.

(** The dictionary comprehension of [decode]:
    [{coloring[x]: y for x, y in clues}], which raises [KeyError] at the
    first clue whose cell has no colour. *)
Fixpoint decode_lookup (coloring : gmap Z Py.label) (clues : list clue)
    (acc : gmap Py.label Z) : Py.result (gmap Py.label Z) :=
  match clues with
  | [] => mret acc
  | c :: rest =>
      col ← Py.dict_getitem coloring c.1;
      decode_lookup coloring rest (<[col := c.2]> acc)
  end.

(** [disp(solution)]: the rows written to standard output. *)
Definition disp (solution : list Z) : list (list Z) :=
  (λ i, Py.slice solution i (i + 4)) <$> Py.range_step 0 16 4.

(** [decode(coloring, clues)]: what it prints, or the exception. *)
Definition decode (coloring : gmap Z Py.label) (clues : list clue)
  : Py.result (list (list Z)) :=
  lookup_tbl ← decode_lookup coloring clues ∅;
  solution ← mapM (λ i, col ← Py.dict_getitem coloring i;
                        Py.dict_getitem lookup_tbl col)
                  (Py.range 16);
  mret (disp solution).

Section Main.

(** The oracle [dnx.min_vertex_coloring], as in [Sudoku.solve]. *)
Variable min_vertex_coloring :
  Nx.Graph → option Z → option Z → Z → Z → gmap Z Py.label.

(** [main()] *)
Definition main : Py.result (list (list Z)) :=
  let clues := [(0, 4); (2, 1); (7, 2); (8, 3); (13, 4)] in
  let G := make_sudoku_graph clues in
  let coloring := min_vertex_coloring G None (Some 4) 10 3 in
  decode coloring clues.

End Main.

End Sudoku4.

(** ** The rules of the puzzle

    The reference the scorer is compared with: the nine rows, nine columns
    and nine 3x3 blocks of the grid as lists of cell indices (row-major
    numbering).  These follow the rules of Sudoku, not the code. *)

Module Rules.

Definition row (r : Z) : list Z := (λ c, 9 * r + c) <$> seqZ 0 9.

Definition column (c : Z) : list Z := (λ r, 9 * r + c) <$> seqZ 0 9.

Definition block (b : Z) : list Z :=
  r ← seqZ 0 3; c ← seqZ 0 3; [27 * (b / 3) + 9 * r + 3 * (b mod 3) + c].

Definition units : list (list Z) :=
  (row <$> seqZ 0 9) ++ (column <$> seqZ 0 9) ++ (block <$> seqZ 0 9).

(** A fully correct solution: 81 digits, and every row, column and block
    holds each of 1..9 once. *)
Definition correct (a : list Z) : Prop :=
  length a = 81%nat ∧
  ∀ u, u ∈ units → (λ i, a !!! Z.to_nat i) <$> u ≡ₚ seqZ 1 9.

(** A row, column or block duplicate: two different cells of one unit
    holding the same digit. *)
Definition duplicate (a : list Z) : Prop :=
  ∃ u i j v, u ∈ units ∧ i ∈ u ∧ j ∈ u ∧ i ≠ j ∧
             a !! Z.to_nat i = Some v ∧ a !! Z.to_nat j = Some v.

(** Whether two cells lie in a common unit. *)
Definition share_unit (i j : Z) : bool :=
  existsb (λ u, existsb (Z.eqb i) u && existsb (Z.eqb j) u) units.

End Rules.

(** ** Adjacency *)

Section Adjacency.

Lemma adjacent9_irrefl i : Sudoku.adjacent i i = false.
Proof. unfold Sudoku.adjacent. by rewrite Z.eqb_refl. Qed.

Lemma adjacent9_sym i j : Sudoku.adjacent i j = Sudoku.adjacent j i.
Proof.
  unfold Sudoku.adjacent.
  by rewrite (Z.eqb_sym i j), (Z.eqb_sym (i / 9)), (Z.eqb_sym (i mod 9)),
    (Z.eqb_sym (i / 27)), (Z.eqb_sym (i mod 9 / 3)).
Qed.

Lemma adjacent4_irrefl i : Sudoku4.adjacent i i = false.
Proof. unfold Sudoku4.adjacent. by rewrite Z.eqb_refl. Qed.

Lemma adjacent4_sym i j : Sudoku4.adjacent i j = Sudoku4.adjacent j i.
Proof.
  unfold Sudoku4.adjacent. cbn [existsb].
  by rewrite (Z.eqb_sym i j), (Z.eqb_sym (Z.land i 3)),
    (Z.eqb_sym (Z.land i 10)), (Z.eqb_sym (Z.land i 12)).
Qed.

End Adjacency.

(** The masks of the 4x4 variant, on a 4-bit index: 3 keeps the column,
    12 keeps the row, 10 keeps the bits that name the 2x2 block. *)
Section Masks4.

Local Ltac cell16 i :=
  let H := fresh in
  assert (H : i ∈ seqZ 0 16) by (apply elem_of_seqZ; lia);
  cbv in H;
  repeat (apply elem_of_cons in H as [-> | H]; [reflexivity |]);
  by apply elem_of_nil in H.

Lemma land_3_column i : 0 ≤ i < 16 → Z.land i 3 = i mod 4.
Proof. intros. cell16 i. Qed.

Lemma land_12_row i : 0 ≤ i < 16 → Z.land i 12 = 4 * (i / 4).
Proof. intros. cell16 i. Qed.

Lemma land_10_block i :
  0 ≤ i < 16 → Z.land i 10 = 8 * (i / 8) + 2 * (i mod 4 / 2).
Proof. intros. cell16 i. Qed.

Lemma adjacent4_masks i j :
  Sudoku4.adjacent i j = true ↔
  i ≠ j ∧ (Z.land i 3 = Z.land j 3 ∨ Z.land i 10 = Z.land j 10
           ∨ Z.land i 12 = Z.land j 12).
Proof.
  unfold Sudoku4.adjacent. cbn [existsb]. rewrite orb_false_r.
  rewrite andb_true_iff, negb_true_iff, Z.eqb_neq, !orb_true_iff, !Z.eqb_eq.
  tauto.
Qed.

End Masks4.

(** C3.  On the sixteen cells of the 4x4 grid the mask test of
    [sudoku4.adjacent] is row / column / 2x2-block adjacency: the two cells
    differ and share a row ([i // 4]), a column ([i % 4]) or a block
    ([i // 8] together with [(i % 4) // 2]). *)
Theorem adjacent4_row_column_block (i j : Z) :
  0 ≤ i < 16 → 0 ≤ j < 16 →
  Sudoku4.adjacent i j = true ↔
  i ≠ j ∧ (i / 4 = j / 4 ∨ i mod 4 = j mod 4
           ∨ (i / 8 = j / 8 ∧ i mod 4 / 2 = j mod 4 / 2)).
Proof.
  intros Hi Hj. rewrite adjacent4_masks.
  rewrite !land_3_column, !land_10_block, !land_12_row by done.
  assert (0 ≤ i mod 4 / 2 < 2 ∧ 0 ≤ j mod 4 / 2 < 2) as [??].
  { split; (split; [apply Z.div_pos; [apply Z.mod_pos_bound|]; lia
                   | apply Z.div_lt_upper_bound; [lia|];
                     pose proof (Z.mod_pos_bound i 4); pose proof (Z.mod_pos_bound j 4); lia]). }
  split; (intros [Hne Hsame]; split; [done|]); lia.
Qed.

Lemma adjacent4_row_column_block_witness :
  Sudoku4.adjacent 5 7 = true ↔
  5 ≠ 7 ∧ (5 / 4 = 7 / 4 ∨ 5 mod 4 = 7 mod 4
           ∨ (5 / 8 = 7 / 8 ∧ 5 mod 4 / 2 = 7 mod 4 / 2)).
Proof. apply (adjacent4_row_column_block 5 7); lia. Defined.

(** C5.  Both adjacency predicates are irreflexive and symmetric; this
    holds for all integers, hence for the cell indices of either grid. *)
Theorem adjacent_irreflexive_symmetric :
  (∀ i j : Z, Sudoku.adjacent i i = false
              ∧ Sudoku.adjacent i j = Sudoku.adjacent j i) ∧
  (∀ i j : Z, Sudoku4.adjacent i i = false
              ∧ Sudoku4.adjacent i j = Sudoku4.adjacent j i).
Proof.
  split; intros i j; split;
    auto using adjacent9_irrefl, adjacent9_sym, adjacent4_irrefl, adjacent4_sym.
Qed.

(** ** The 9x9 decoder *)

Section Decoder9.

Implicit Types (coloring : gmap Z Py.label) (clues : list clue).
Implicit Types (col : Py.label) (acc : gmap Py.label Z).

(** One step of the dictionary comprehension. *)
Local Abbreviation step coloring :=
  (λ (acc : gmap Py.label Z) (c : clue),
     match coloring !! c.1 with
     | Some col => <[col := c.2]> acc
     | None => acc
     end).

Lemma decode_lookup_app coloring l1 l2 :
  Sudoku.decode_lookup coloring (l1 ++ l2)
  = foldl (step coloring) (Sudoku.decode_lookup coloring l1) l2.
Proof. unfold Sudoku.decode_lookup. by rewrite foldl_app. Qed.

(** Clues of another colour leave the entry of [col] alone. *)
Lemma step_other_colours coloring col l acc :
  (∀ c, c ∈ l → coloring !! c.1 ≠ Some col) →
  foldl (step coloring) acc l !! col = acc !! col.
Proof.
  revert acc. induction l as [|c l IH]; intros acc Hl; [done|].
  cbn [foldl]. rewrite IH by (intros; apply Hl; by right).
  pose proof (Hl c (list_elem_of_here _ _)) as Hc.
  destruct (coloring !! c.1) as [col'|]; [|done].
  apply lookup_insert_ne. congruence.
Qed.

(** Every entry of the table comes from a clue whose cell has that
    colour. *)
Lemma step_origin coloring col v l acc :
  foldl (step coloring) acc l !! col = Some v →
  acc !! col = Some v ∨ ∃ x, (x, v) ∈ l ∧ coloring !! x = Some col.
Proof.
  revert acc. induction l as [|[x y] l IH]; intros acc Hv; [by left|].
  cbn [foldl] in Hv. apply IH in Hv as [Hv | (x' & ? & ?)].
  - cbn [fst snd] in Hv. destruct (coloring !! x) as [col'|] eqn:Hx; [|by left].
    destruct (decide (col' = col)) as [->|Hne].
    + rewrite lookup_insert_eq in Hv. injection Hv as ->.
      right. exists x. split; [by left | done].
    + rewrite lookup_insert_ne in Hv by done. by left.
  - right. exists x'. split; [by right | done].
Qed.

Lemma decode_lookup_last coloring l1 x v l2 col :
  coloring !! x = Some col →
  (∀ c, c ∈ l2 → coloring !! c.1 ≠ Some col) →
  Sudoku.decode_lookup coloring (l1 ++ (x, v) :: l2) !! col = Some v.
Proof.
  intros Hx Hl2. rewrite decode_lookup_app. cbn [foldl fst snd].
  rewrite step_other_colours by done. rewrite Hx. apply lookup_insert_eq.
Qed.

Lemma decode_lookup_origin coloring clues col v :
  Sudoku.decode_lookup coloring clues !! col = Some v →
  ∃ x, (x, v) ∈ clues ∧ coloring !! x = Some col.
Proof.
  intros Hv. apply step_origin in Hv as [Hv | Hv]; [|done].
  by rewrite lookup_empty in Hv.
Qed.

Lemma decode_lookup_unknown coloring clues col :
  (∀ c, c ∈ clues → coloring !! c.1 ≠ Some col) →
  Sudoku.decode_lookup coloring clues !! col = None.
Proof.
  intros H. unfold Sudoku.decode_lookup.
  by rewrite step_other_colours, lookup_empty.
Qed.

(** A key once in the table stays in it. *)
Lemma step_keeps_keys coloring col l acc :
  is_Some (acc !! col) → is_Some (foldl (step coloring) acc l !! col).
Proof.
  revert acc. induction l as [|c l IH]; intros acc Hacc; [done|].
  cbn [foldl]. apply IH. destruct (coloring !! c.1) as [col'|]; [|done].
  destruct (decide (col' = col)) as [->|];
    [rewrite lookup_insert_eq; by eexists | by rewrite lookup_insert_ne].
Qed.

Lemma decode_lookup_known coloring clues x v col :
  (x, v) ∈ clues → coloring !! x = Some col →
  is_Some (Sudoku.decode_lookup coloring clues !! col).
Proof.
  intros (l1 & l2 & ->)%list_elem_of_split Hx.
  rewrite decode_lookup_app. cbn [foldl fst snd]. rewrite Hx.
  apply step_keeps_keys. rewrite lookup_insert_eq. by eexists.
Qed.

(** Indexing the decoded list at a real cell. *)
Lemma decode_getitem coloring clues i :
  0 ≤ i < 81 →
  Py.getitem (Sudoku.decode coloring clues) i
  = mret (Py.dict_get (Sudoku.decode_lookup coloring clues)
                      (Py.dict_get coloring i Sudoku.sentinel) 9).
Proof.
  intros Hi. unfold Py.getitem, Sudoku.decode, Py.range.
  destruct (Z.ltb_spec i 0) as [|_]; [lia|].
  destruct (Z.ltb_spec i 0) as [|_]; [lia|].
  rewrite list_lookup_fmap, lookup_seqZ_lt by lia. cbn.
  by rewrite Z2Nat.id by lia.
Qed.

Lemma decode_length coloring clues :
  length (Sudoku.decode coloring clues) = 81%nat.
Proof. unfold Sudoku.decode, Py.range. by rewrite length_fmap, length_seqZ. Qed.

End Decoder9.

(** C9.  In the colour-to-value table of the 9x9 decoder the last clue of
    the list whose cell has a given colour fixes the value recorded for
    that colour, whatever clues precede it; every real cell of that colour
    is then decoded to that value. *)
Theorem decode_lookup_last_clue_wins
    (coloring : gmap Z Py.label) (l1 l2 : list clue) (x v : Z) (col : Py.label) :
  coloring !! x = Some col →
  (∀ x' v', (x', v') ∈ l2 → coloring !! x' ≠ Some col) →
  Sudoku.decode_lookup coloring (l1 ++ (x, v) :: l2) !! col = Some v ∧
  ∀ i, 0 ≤ i < 81 → coloring !! i = Some col →
       Py.getitem (Sudoku.decode coloring (l1 ++ (x, v) :: l2)) i = mret v.
Proof.
  intros Hx Hl2.
  assert (Sudoku.decode_lookup coloring (l1 ++ (x, v) :: l2) !! col = Some v)
    as Hlast.
  { apply decode_lookup_last; [done|]. intros [x' v'] ?. by apply (Hl2 x' v'). }
  split; [done|]. intros i Hi Hcol.
  rewrite decode_getitem by done. unfold Py.dict_get.
  by rewrite Hcol; cbn; rewrite Hlast.
Qed.

Lemma decode_lookup_last_clue_wins_witness :
  let coloring : gmap Z Py.label := {[0 := Py.LInt 7; 1 := Py.LInt 7]} in
  Sudoku.decode_lookup coloring ([(0, 5)] ++ (1, 3) :: []) !! Py.LInt 7 = Some 3 ∧
  ∀ i, 0 ≤ i < 81 → coloring !! i = Some (Py.LInt 7) →
       Py.getitem (Sudoku.decode coloring ([(0, 5)] ++ (1, 3) :: [])) i = mret 3.
Proof.
  intros coloring.
  apply (decode_lookup_last_clue_wins coloring [(0, 5)] [] 1 3 (Py.LInt 7)).
  - reflexivity.
  - intros x' v' H. inversion H.
Defined.

(** C10.  The 9x9 decoder is total: it is a function into lists (no
    operation in it can raise), its result has 81 entries, and each entry
    is the value of some clue or the constant 9. *)
Theorem decode_total (coloring : gmap Z Py.label) (clues : list clue) :
  length (Sudoku.decode coloring clues) = 81%nat ∧
  ∀ v, v ∈ Sudoku.decode coloring clues → v = 9 ∨ ∃ x, (x, v) ∈ clues.
Proof.
  split; [apply decode_length|]. intros v Hv.
  unfold Sudoku.decode in Hv. apply list_elem_of_fmap in Hv as (i & -> & _).
  unfold Py.dict_get.
  generalize (default Sudoku.sentinel (coloring !! i)); intros col.
  destruct (Sudoku.decode_lookup coloring clues !! col) as [w|] eqn:Hw; cbn.
  - right. apply decode_lookup_origin in Hw as (x & ? & _). by exists x.
  - by left.
Qed.

(** C2, as stated, fails when the label ["?"] is the colour of a clue
    cell: with the colouring [{0: '?'}] and the clue [(0, 5)] the table
    holds the sentinel as a key, and cell 1, which has no colour at all,
    is decoded to 5 instead of the fallback 9. *)
Lemma decode_fallback_counterexample :
  let coloring : gmap Z Py.label := {[0 := Py.LStr "?"]} in
  let clues : list clue := [(0, 5)] in
  Sudoku.decode_lookup coloring clues !! Sudoku.sentinel = Some 5 ∧
  coloring !! 1 = None ∧
  Py.getitem (Sudoku.decode coloring clues) 1 = mret 5 ∧
  ¬ (∀ i, 0 ≤ i < 81 → coloring !! i = None →
          Py.getitem (Sudoku.decode coloring clues) i = mret 9).
Proof.
  intros coloring clues.
  assert (Py.getitem (Sudoku.decode coloring clues) 1 = mret 5) as Hcell
    by (vm_compute; reflexivity).
  split; [vm_compute; reflexivity|].
  split; [vm_compute; reflexivity|].
  split; [exact Hcell|].
  intros Hall. rewrite (Hall 1) in Hcell; [discriminate | lia |].
  vm_compute; reflexivity.
Qed.

(** C2, amended.  When no clue cell is coloured with the sentinel label
    ["?"] (as with the integer labels of the oracles), the sentinel is not
    a key of the colour-to-value table; the value decoded at a real cell
    [i] is [lookup.get(coloring.get(i, '?'), 9)], which is the table's
    entry for the colour of [i] when [i] is coloured and its colour is in
    the table, and the fallback 9 in the two other cases. *)
Theorem decode_fallback (coloring : gmap Z Py.label) (clues : list clue) :
  (∀ x y, (x, y) ∈ clues → coloring !! x ≠ Some Sudoku.sentinel) →
  Sudoku.decode_lookup coloring clues !! Sudoku.sentinel = None ∧
  ∀ i, 0 ≤ i < 81 →
    Py.getitem (Sudoku.decode coloring clues) i
    = mret (Py.dict_get (Sudoku.decode_lookup coloring clues)
                        (Py.dict_get coloring i Sudoku.sentinel) 9) ∧
    Py.getitem (Sudoku.decode coloring clues) i
    = mret (match coloring !! i with
            | None => 9
            | Some col =>
                match Sudoku.decode_lookup coloring clues !! col with
                | None => 9
                | Some v => v
                end
            end).
Proof.
  intros Hclues.
  assert (Sudoku.decode_lookup coloring clues !! Sudoku.sentinel = None)
    as Habsent.
  { apply decode_lookup_unknown. intros [x y] ?. by apply (Hclues x y). }
  split; [done|]. intros i Hi. rewrite decode_getitem by done.
  split; [done|]. unfold Py.dict_get.
  destruct (coloring !! i) as [col|]; cbn; [|by rewrite Habsent].
  by destruct (Sudoku.decode_lookup coloring clues !! col).
Qed.

Lemma decode_fallback_witness :
  let coloring : gmap Z Py.label := {[0 := Py.LInt 2; 4 := Py.LInt 6]} in
  Sudoku.decode_lookup coloring [(0, 5)] !! Sudoku.sentinel = None ∧
  Py.getitem (Sudoku.decode coloring [(0, 5)]) 0 = mret 5 ∧
  Py.getitem (Sudoku.decode coloring [(0, 5)]) 1 = mret 9 ∧
  Py.getitem (Sudoku.decode coloring [(0, 5)]) 4 = mret 9.
Proof.
  intros coloring.
  assert (∀ x y, (x, y) ∈ [(0, 5)] → coloring !! x ≠ Some Sudoku.sentinel)
    as Hclues.
  { intros x y Hxy. apply list_elem_of_singleton in Hxy.
    injection Hxy as -> ->. vm_compute. discriminate. }
  destruct (decode_fallback coloring [(0, 5)] Hclues) as [Habsent Hcells].
  split; [exact Habsent|].
  split; [|split].
  - destruct (Hcells 0) as [_ ->]; [lia | reflexivity].
  - destruct (Hcells 1) as [_ ->]; [lia | reflexivity].
  - destruct (Hcells 4) as [_ ->]; [lia | reflexivity].
Defined.

(** C6.  If every clue cell is coloured and two clue cells share a colour
    exactly when they share a value, the 9x9 decoder gives back the digit
    of every clue that lies on the real grid. *)
Theorem decode_left_inverse (coloring : gmap Z Py.label) (clues : list clue) :
  (∀ x y, (x, y) ∈ clues → is_Some (coloring !! x)) →
  (∀ x1 y1 x2 y2, (x1, y1) ∈ clues → (x2, y2) ∈ clues →
     coloring !! x1 = coloring !! x2 ↔ y1 = y2) →
  ∀ i v, (i, v) ∈ clues → 0 ≤ i < 81 →
         Py.getitem (Sudoku.decode coloring clues) i = mret v.
Proof.
  intros Hcoloured Hbij i v Hclue Hi.
  destruct (Hcoloured i v Hclue) as [col Hcol].
  rewrite decode_getitem by done. unfold Py.dict_get. rewrite Hcol. cbn.
  destruct (Sudoku.decode_lookup coloring clues !! col) as [w|] eqn:Hw.
  - apply decode_lookup_origin in Hw as (x & Hx & Hxcol). cbn.
    f_equal. symmetry. apply (Hbij i v x w); [done..|]. by rewrite Hcol, Hxcol.
  - destruct (decode_lookup_known coloring clues i v col) as [? Hsome];
      [done..|]. by rewrite Hsome in Hw.
Qed.

Lemma decode_left_inverse_witness :
  let coloring : gmap Z Py.label :=
    {[0 := Py.LInt 2; 1 := Py.LInt 0; 2 := Py.LInt 2; 81 := Py.LInt 1]} in
  let clues : list clue := [(0, 5); (1, 3); (2, 5); (81, 4)] in
  Py.getitem (Sudoku.decode coloring clues) 2 = mret 5.
Proof.
  intros coloring clues.
  apply (decode_left_inverse coloring clues); [| |set_solver|lia].
  - intros x y Hxy. repeat (apply elem_of_cons in Hxy as [Hxy|Hxy];
      [injection Hxy as -> ->; by eexists|]). by apply elem_of_nil in Hxy.
  - intros x1 y1 x2 y2 H1 H2.
    repeat (apply elem_of_cons in H1 as [H1|H1]; [injection H1 as -> ->|]);
      [..|by apply elem_of_nil in H1];
      (repeat (apply elem_of_cons in H2 as [H2|H2]; [injection H2 as -> ->|]);
       [..|by apply elem_of_nil in H2]);
      vm_compute; split; congruence.
Defined.

(** ** Computations that may raise *)

Section ResultMonad.

Context {A B : Type}.
Implicit Types (f : A → Py.result B) (l : list A).

Lemma mapM_result_nil f : mapM f [] = mret [].
Proof. reflexivity. Qed.

Lemma mapM_result_cons f x l :
  mapM f (x :: l) = (y ← f x; k ← mapM f l; mret (y :: k)).
Proof. reflexivity. Qed.

(** [mapM] returns when every call returns ... *)
Lemma mapM_result_ok f (g : A → B) l :
  (∀ x, x ∈ l → f x = mret (g x)) → mapM f l = mret (g <$> l).
Proof.
  induction l as [|x l IH]; intros Hl; [done|].
  rewrite mapM_result_cons, (Hl x), IH by (by constructor || set_solver).
  reflexivity.
Qed.

(** ... and raises [e] when some call raises and no call raises
    anything but [e]. *)
Lemma mapM_result_raise f e l :
  (∃ x, x ∈ l ∧ f x = Py.raise e) →
  (∀ x e', x ∈ l → f x = Py.raise e' → e' = e) →
  mapM f l = Py.raise e.
Proof.
  induction l as [|x l IH]; intros (x0 & Hx0 & Hfx0) Honly.
  { by apply elem_of_nil in Hx0. }
  rewrite mapM_result_cons.
  destruct (f x) as [e'|y] eqn:Hfx.
  { by rewrite (Honly x e') by (done || by left). }
  apply elem_of_cons in Hx0 as [->|Hx0]; [by rewrite Hfx in Hfx0|].
  rewrite IH; [done| by exists x0 |].
  intros x' e' ? ?. apply (Honly x'); [by right | done].
Qed.

End ResultMonad.

(** ** The 4x4 decoder *)

Section Decoder4.

Implicit Types (coloring : gmap Z Py.label) (clues : list clue).
Implicit Types (col : Py.label) (acc : gmap Py.label Z).

(** When every clue cell is coloured the strict comprehension builds
    the same table as the guarded one of the 9x9 decoder. *)
Lemma decode4_lookup_ok coloring clues :
  (∀ x y, (x, y) ∈ clues → is_Some (coloring !! x)) →
  Sudoku4.decode_lookup coloring clues ∅
  = mret (Sudoku.decode_lookup coloring clues).
Proof.
  unfold Sudoku.decode_lookup. generalize (∅ : gmap Py.label Z).
  induction clues as [|[x y] clues IH]; intros acc Hall; [done|].
  destruct (Hall x y) as [col Hcol]; [by left|].
  cbn [Sudoku4.decode_lookup foldl fst snd]. unfold Py.dict_getitem.
  rewrite Hcol. cbn. apply IH. intros x' y' ?. apply (Hall x' y'). by right.
Qed.

Lemma decode4_lookup_raise coloring clues acc :
  (∃ x y, (x, y) ∈ clues ∧ coloring !! x = None) →
  Sudoku4.decode_lookup coloring clues acc = Py.raise Py.KeyError.
Proof.
  revert acc. induction clues as [|[x y] clues IH]; intros acc (x0 & y0 & Hin & Hx0).
  { by apply elem_of_nil in Hin. }
  cbn [Sudoku4.decode_lookup fst snd]. unfold Py.dict_getitem.
  destruct (coloring !! x) as [col|] eqn:Hx; [|done]. cbn.
  apply elem_of_cons in Hin as [[= -> ->]|Hin]; [congruence|].
  apply IH. by exists x0, y0.
Qed.

(** The strict comprehension either builds the table or raises
    [KeyError]. *)
Lemma decode4_lookup_cases coloring clues :
  (∀ x y, (x, y) ∈ clues → is_Some (coloring !! x)) ∨
  (∃ x y, (x, y) ∈ clues ∧ coloring !! x = None).
Proof.
  induction clues as [|[x y] clues [IH|(x0 & y0 & ? & ?)]].
  - left. intros x y H. by apply elem_of_nil in H.
  - destruct (coloring !! x) as [col|] eqn:Hx.
    + left. intros x' y' [[= -> ->]|?]%elem_of_cons; [by eexists | eauto].
    + right. exists x, y. split; [by left | done].
  - right. exists x0, y0. split; [by right | done].
Qed.

(** One cell of the solution. *)
Local Abbreviation cell4 coloring tbl :=
  (λ i : Z, col ← Py.dict_getitem coloring i; Py.dict_getitem tbl col).

Lemma cell4_only_KeyError coloring (tbl : gmap Py.label Z) i e :
  cell4 coloring tbl i = Py.raise e → e = Py.KeyError.
Proof.
  unfold Py.dict_getitem.
  destruct (coloring !! i) as [col|]; cbn; [|by intros [= <-]].
  destruct (tbl !! col); cbn; [done | by intros [= <-]].
Qed.

(** A cell without a colour, or with a colour the table does not know,
    makes the list comprehension raise [KeyError]. *)
Lemma solution4_raise coloring (tbl : gmap Py.label Z) :
  (∃ i, 0 ≤ i < 16 ∧
        (coloring !! i = None ∨
         ∃ col, coloring !! i = Some col ∧ tbl !! col = None)) →
  mapM (cell4 coloring tbl) (Py.range 16) = Py.raise Py.KeyError.
Proof.
  intros (i & Hi & Hbad). apply mapM_result_raise.
  - exists i. split; [apply elem_of_seqZ; lia|]. unfold Py.dict_getitem.
    destruct Hbad as [-> | (col & -> & Hcol)]; cbn; [done|]. by rewrite Hcol.
  - intros x e' _. apply cell4_only_KeyError.
Qed.

Lemma solution4_ok coloring (tbl : gmap Py.label Z) :
  (∀ i, 0 ≤ i < 16 →
        ∃ col, coloring !! i = Some col ∧ is_Some (tbl !! col)) →
  mapM (cell4 coloring tbl) (Py.range 16)
  = mret ((λ i, default 0 (coloring !! i ≫= λ col, tbl !! col))
            <$> Py.range 16).
Proof.
  intros Hall. apply mapM_result_ok. intros i Hi%elem_of_seqZ.
  destruct (Hall i) as (col & Hcol & v & Hv); [lia|].
  unfold Py.dict_getitem. rewrite Hcol. cbn. by rewrite Hv.
Qed.

End Decoder4.

(** C8.  The 4x4 decoder has no fallback.  It raises [KeyError] (a lookup
    error) as soon as a cell of the grid has no colour, or has a colour
    that the table built from the clues does not know (a colour of no
    clue cell).  When every cell it looks up (the sixteen cells of
    the grid and the clue cells, which for a 4x4 clue list are cells of
    the grid) has a colour and every colour of a grid cell is the colour
    of a clue cell, it returns, printing the decoded rows. *)
Theorem decode4_strict (coloring : gmap Z Py.label) (clues : list clue) :
  ((∃ i, 0 ≤ i < 16 ∧ coloring !! i = None) →
   Sudoku4.decode coloring clues = Py.raise Py.KeyError) ∧
  ((∃ i col, 0 ≤ i < 16 ∧ coloring !! i = Some col ∧
             ∀ x y, (x, y) ∈ clues → coloring !! x ≠ Some col) →
   Sudoku4.decode coloring clues = Py.raise Py.KeyError) ∧
  ((∃ i col tbl, 0 ≤ i < 16 ∧ coloring !! i = Some col ∧
                 Sudoku4.decode_lookup coloring clues ∅ = mret tbl ∧
                 tbl !! col = None) →
   Sudoku4.decode coloring clues = Py.raise Py.KeyError) ∧
  ((∀ x y, (x, y) ∈ clues → is_Some (coloring !! x)) →
   (∀ i, 0 ≤ i < 16 →
      ∃ col, coloring !! i = Some col ∧
             ∃ x y, (x, y) ∈ clues ∧ coloring !! x = Some col) →
   ∃ tbl solution,
     Sudoku4.decode_lookup coloring clues ∅ = mret tbl ∧
     Sudoku4.decode coloring clues = mret (Sudoku4.disp solution) ∧
     length solution = 16%nat ∧
     ∀ i, 0 ≤ i < 16 →
       ∃ col v, coloring !! i = Some col ∧ tbl !! col = Some v ∧
                Py.getitem solution i = mret v).
Proof.
  unfold Sudoku4.decode.
  destruct (decode4_lookup_cases coloring clues) as [Hall | Hmiss].
  2: { rewrite decode4_lookup_raise by done.
       split; [done|]. split; [done|]. split; [done|]. intros Hall.
       destruct Hmiss as (x & y & Hin & Hx).
       destruct (Hall x y Hin) as [? ?]. congruence. }
  rewrite decode4_lookup_ok by done. cbn.
  split; [|split; [|split]].
  - intros (i & Hi & Hnone). rewrite solution4_raise; [done|].
    exists i. split; [done | by left].
  - intros (i & col & Hi & Hcol & Hunknown). rewrite solution4_raise; [done|].
    exists i. split; [done | right]. exists col. split; [done|].
    apply decode_lookup_unknown. intros [x y] ?. by apply (Hunknown x y).
  - intros (i & col & tbl & Hi & Hcol & [= <-] & Htbl).
    rewrite solution4_raise; [done|].
    exists i. split; [done | right]. by exists col.
  - intros _ Hres.
    assert (∀ i, 0 ≤ i < 16 →
              ∃ col, coloring !! i = Some col
                     ∧ is_Some (Sudoku.decode_lookup coloring clues !! col))
      as Hknown.
    { intros i Hi. destruct (Hres i Hi) as (col & Hcol & x & y & Hin & Hx).
      exists col. split; [done|]. by apply (decode_lookup_known _ _ x y). }
    rewrite solution4_ok by done. cbn.
    eexists _, _. split; [done|]. split; [done|].
    split; [unfold Py.range; by rewrite length_fmap, length_seqZ|].
    intros i Hi. destruct (Hknown i Hi) as (col & Hcol & v & Hv).
    exists col, v. split; [done|]. split; [done|].
    unfold Py.getitem, Py.range.
    destruct (Z.ltb_spec i 0) as [|_]; [lia|].
    destruct (Z.ltb_spec i 0) as [|_]; [lia|].
    rewrite list_lookup_fmap, lookup_seqZ_lt by lia. cbn.
    rewrite Z2Nat.id, Z.add_0_l, Hcol by lia. cbn. by rewrite Hv.
Qed.

Lemma decode4_strict_witness :
  let clues : list clue := [(0, 4); (2, 1); (7, 2); (8, 3); (13, 4)] in
  let coloring : gmap Z Py.label :=
    list_to_map (zip (seqZ 0 16)
      (Py.LInt <$> [4; 2; 1; 3;  1; 3; 4; 2;  3; 1; 2; 4;  2; 4; 3; 1])) in
  Sudoku4.decode (delete 5 coloring) clues = Py.raise Py.KeyError ∧
  Sudoku4.decode coloring [(0, 4); (2, 1); (7, 2)] = Py.raise Py.KeyError ∧
  ∃ solution, Sudoku4.decode coloring clues = mret (Sudoku4.disp solution).
Proof.
  intros clues coloring. split; [|split].
  - apply (proj1 (decode4_strict (delete 5 coloring) clues)).
    exists 5. split; [lia | reflexivity].
  - apply (proj1 (proj2 (decode4_strict coloring [(0, 4); (2, 1); (7, 2)]))).
    exists 8, (Py.LInt 3). split; [lia|]. split; [reflexivity|].
    intros x y Hxy.
    repeat (apply elem_of_cons in Hxy as [Hxy|Hxy];
            [injection Hxy as -> ->; vm_compute; discriminate|]).
    by apply elem_of_nil in Hxy.
  - destruct (proj2 (proj2 (proj2 (decode4_strict coloring clues))))
      as (tbl & solution & _ & Hdec & _).
    + intros x y Hxy.
      repeat (apply elem_of_cons in Hxy as [Hxy|Hxy];
              [injection Hxy as -> ->; by eexists|]).
      by apply elem_of_nil in Hxy.
    + intros i Hi.
      assert (Hcell : i ∈ seqZ 0 16) by (apply elem_of_seqZ; lia).
      clear Hi. cbv in Hcell.
      repeat (apply elem_of_cons in Hcell as [-> | Hcell];
        [eexists; split; [reflexivity|];
         first [ exists 0, 4; split; [by repeat constructor | reflexivity]
               | exists 2, 1; split; [by repeat constructor | reflexivity]
               | exists 7, 2; split; [by repeat constructor | reflexivity]
               | exists 8, 3; split; [by repeat constructor | reflexivity] ] |]).
      by apply elem_of_nil in Hcell.
    + by exists solution.
Defined.

(** ** Pairs of positions *)

Section Combinations.

Context {A : Type}.
Implicit Types (x y a : A) (l : list A).

Lemma elem_of_combinations2_cons x y a l :
  (x, y) ∈ Py.combinations2 (a :: l) ↔
  (x = a ∧ y ∈ l) ∨ (x, y) ∈ Py.combinations2 l.
Proof.
  cbn [Py.combinations2]. rewrite elem_of_app.
  change (map (pair a) l) with (pair a <$> l). rewrite list_elem_of_fmap.
  split; (intros [H|H]; [left | by right]).
  - destruct H as (z & [= -> ->] & ?). done.
  - destruct H as [-> ?]. by exists y.
Qed.

Lemma combinations2_elem_of x y l :
  (x, y) ∈ Py.combinations2 l → x ∈ l ∧ y ∈ l.
Proof.
  induction l as [|a l IH]; [by intros ?%elem_of_nil|].
  rewrite elem_of_combinations2_cons. intros [[-> ?] | [??]%IH].
  - split; [by left | by right].
  - split; by right.
Qed.

(** Two different elements of a list form a pair, in one order or the
    other. *)
Lemma combinations2_total x y l :
  x ∈ l → y ∈ l → x ≠ y →
  (x, y) ∈ Py.combinations2 l ∨ (y, x) ∈ Py.combinations2 l.
Proof.
  induction l as [|a l IH]; [by intros ?%elem_of_nil|].
  rewrite !elem_of_combinations2_cons.
  intros [->|Hx]%elem_of_cons [->|Hy]%elem_of_cons Hne.
  - done.
  - by left; left.
  - by right; left.
  - destruct (IH Hx Hy Hne); [left | right]; by right.
Qed.

Lemma combinations2_NoDup l : NoDup l → NoDup (Py.combinations2 l).
Proof.
  induction 1 as [|a l Ha Hl IH]; [constructor|].
  cbn [Py.combinations2]. apply NoDup_app. split; [|split; [|done]].
  - change (map (pair a) l) with (pair a <$> l). by apply (NoDup_fmap_2 _).
  - change (map (pair a) l) with (pair a <$> l).
    intros [x y] (z & [= -> ->] & ?)%list_elem_of_fmap Hin.
    by apply combinations2_elem_of in Hin as [? _].
Qed.

End Combinations.

(** The pairs drawn from [range(n)] are the pairs [i < j] below [n]. *)
Lemma elem_of_combinations2_seqZ (k : nat) (m i j : Z) :
  (i, j) ∈ Py.combinations2 (seqZ m (Z.of_nat k)) ↔ m ≤ i < j ∧ j < m + Z.of_nat k.
Proof.
  revert m. induction k as [|k IH]; intros m.
  { rewrite seqZ_nil by lia. cbn. rewrite elem_of_nil. lia. }
  rewrite seqZ_cons by lia.
  replace (Z.pred (Z.of_nat (S k))) with (Z.of_nat k) by lia.
  rewrite elem_of_combinations2_cons, IH, elem_of_seqZ. lia.
Qed.

Lemma elem_of_combinations2_range (n i j : Z) :
  (i, j) ∈ Py.combinations2 (Py.range n) ↔ 0 ≤ i < j ∧ j < n.
Proof.
  unfold Py.range. destruct (Z.le_gt_cases n 0) as [Hn|Hn].
  { rewrite seqZ_nil by done. cbn. rewrite elem_of_nil. lia. }
  rewrite <- (Z2Nat.id n) at 1 by lia.
  rewrite elem_of_combinations2_seqZ, Z2Nat.id; lia.
Qed.

(** ** The constraint graph *)

Section GraphBuilder.

Implicit Types (G : Nx.Graph) (e : Z * Z) (clues : list clue).

Lemma edge_comm u v : Nx.edge u v = Nx.edge v u.
Proof. unfold Nx.edge. by rewrite Z.min_comm, Z.max_comm. Qed.

Lemma edge_loop u v w : Nx.edge u v = Nx.edge w w → u = v.
Proof. unfold Nx.edge. intros [= Hmin Hmax]. lia. Qed.

Lemma edges_add_edges_from es G e :
  e ∈ Nx.edges (Nx.add_edges_from es G) ↔
  e ∈ Nx.edges G ∨ ∃ u v, (u, v) ∈ es ∧ e = Nx.edge u v.
Proof.
  unfold Nx.add_edges_from. revert G.
  induction es as [|[u v] es IH]; intros G; cbn [foldl].
  { split; [by left | intros [|(? & ? & ?%elem_of_nil & _)]; done]. }
  rewrite IH. cbn [Nx.add_edge Nx.edges fst snd].
  rewrite elem_of_union, elem_of_singleton. split.
  - intros [[->|?]|(u' & v' & ? & ->)]; [right | by left | right].
    + exists u, v. split; [by left | done].
    + exists u', v'. split; [by right | done].
  - intros [?|(u' & v' & [[= -> ->]|?]%elem_of_cons & ->)].
    + left. by right.
    + left. by left.
    + right. by exists u', v'.
Qed.

(** The edges contributed by the clues: one for each pair of clues, in
    list order, that carry different values. *)
Lemma edges_add_clue_edges_pairs clues G e :
  e ∈ Nx.edges (Sudoku.add_clue_edges clues G) ↔
  e ∈ Nx.edges G ∨
  ∃ c1 c2, (c1, c2) ∈ Py.combinations2 clues ∧ c1.2 ≠ c2.2
           ∧ e = Nx.edge c1.1 c2.1.
Proof.
  unfold Sudoku.add_clue_edges. generalize (Py.combinations2 clues).
  intros ps. revert G.
  induction ps as [|[c1 c2] ps IH]; intros G; cbn [foldl].
  { split; [by left | intros [|(? & ? & ?%elem_of_nil & _)]; done]. }
  rewrite IH. split.
  - intros [He|(c1' & c2' & ? & ? & ->)].
    + destruct (Z.eqb_spec c1.2 c2.2) as [|Hne]; cbn in He; [by left|].
      apply elem_of_union in He as [->%elem_of_singleton|?]; [|by left].
      right. exists c1, c2. split; [by left | done].
    + right. exists c1', c2'. split; [by right | done].
  - intros [He|(c1' & c2' & [[= -> ->]|?]%elem_of_cons & Hne & ->)].
    + left. destruct (Z.eqb_spec c1.2 c2.2); cbn; [done|].
      apply elem_of_union. by right.
    + left. destruct (Z.eqb_spec c1.2 c2.2); cbn; [done|].
      apply elem_of_union. left. by apply elem_of_singleton.
    + right. by exists c1', c2'.
Qed.

(** Since both "different value" and the edge are symmetric, the order
    of the two clues in the list is immaterial. *)
Lemma edges_add_clue_edges clues G e :
  e ∈ Nx.edges (Sudoku.add_clue_edges clues G) ↔
  e ∈ Nx.edges G ∨
  ∃ c1 c2, c1 ∈ clues ∧ c2 ∈ clues ∧ c1.2 ≠ c2.2 ∧ e = Nx.edge c1.1 c2.1.
Proof.
  rewrite edges_add_clue_edges_pairs. split; (intros [?|H]; [by left | right]).
  - destruct H as (c1 & c2 & [??]%combinations2_elem_of & ? & ->).
    by exists c1, c2.
  - destruct H as (c1 & c2 & H1 & H2 & Hne & ->).
    destruct (combinations2_total c1 c2 clues) as [?|?];
      [done | done | congruence | by exists c1, c2 |].
    exists c2, c1. split; [done|]. split; [done | apply edge_comm].
Qed.

Lemma add_clue_edges_4_9 clues G :
  Sudoku4.add_clue_edges clues G = Sudoku.add_clue_edges clues G.
Proof. reflexivity. Qed.

(** The edges between the cells of the grid never form a loop. *)
Lemma grid_edges_no_loop (adj : Z → Z → bool) n u :
  (∀ i, adj i i = false) →
  Nx.edge u u ∉ Nx.edges
    (Nx.add_edges_from
       (List.filter (λ e : Z * Z, adj e.1 e.2) (Py.combinations2 (Py.range n)))
       Nx.empty).
Proof.
  intros Hirr. rewrite edges_add_edges_from.
  intros [[]%elem_of_empty | (i & j & Hin & Hloop)].
  apply list_elem_of_In, filter_In in Hin as [_ Hadj]. cbn in Hadj.
  symmetry in Hloop. apply edge_loop in Hloop as ->. by rewrite Hirr in Hadj.
Qed.

Lemma clue_edges_no_loop clues G u :
  (∀ x y1 y2, (x, y1) ∈ clues → (x, y2) ∈ clues → y1 = y2) →
  Nx.edge u u ∉ Nx.edges G →
  Nx.edge u u ∉ Nx.edges (Sudoku.add_clue_edges clues G).
Proof.
  intros Hfun HG. rewrite edges_add_clue_edges.
  intros [?|([x1 y1] & [x2 y2] & H1 & H2 & Hne & Hloop)]; [done|].
  cbn in *. symmetry in Hloop. apply edge_loop in Hloop as ->.
  apply Hne. by apply (Hfun x2).
Qed.

Lemma add_clue_edges_edges_perm clues clues' G :
  clues ≡ₚ clues' →
  Nx.edges (Sudoku.add_clue_edges clues' G)
  = Nx.edges (Sudoku.add_clue_edges clues G).
Proof.
  intros Hperm. apply set_eq. intros e. rewrite !edges_add_clue_edges.
  by setoid_rewrite Hperm.
Qed.

End GraphBuilder.

(** C7, as stated, fails for a clue list that gives one cell two
    different values: the second loop of [make_sudoku_graph] then adds
    the edge from the cell to itself. *)
Lemma make_sudoku_graph_selfloop_counterexample :
  ¬ Nx.no_selfloops (Sudoku.make_sudoku_graph [(0, 1); (0, 2)]) ∧
  ¬ Nx.no_selfloops (Sudoku4.make_sudoku_graph [(0, 1); (0, 2)]).
Proof.
  split; intros Hno; apply (Hno 0); unfold Nx.has_edge;
    [unfold Sudoku.make_sudoku_graph
    |unfold Sudoku4.make_sudoku_graph; rewrite add_clue_edges_4_9];
    cbv zeta; apply edges_add_clue_edges; right;
    exists (0, 1), (0, 2); (split; [by left|]);
    (split; [by right; left|]); by split.
Qed.

(** C7, amended.  For a clue list in which clues on the same cell carry
    the same value (so for any list of clues on pairwise distinct cells)
    [make_sudoku_graph] builds a graph without self-loops, in both
    variants; and for every clue list the edge set, hence the number of
    edges, is the same for every permutation of the list. *)
Theorem make_sudoku_graph_loops_permutation (clues : list clue) :
  ((∀ x y1 y2, (x, y1) ∈ clues → (x, y2) ∈ clues → y1 = y2) →
   Nx.no_selfloops (Sudoku.make_sudoku_graph clues) ∧
   Nx.no_selfloops (Sudoku4.make_sudoku_graph clues)) ∧
  (∀ clues', clues ≡ₚ clues' →
   Nx.edges (Sudoku.make_sudoku_graph clues')
     = Nx.edges (Sudoku.make_sudoku_graph clues) ∧
   Nx.number_of_edges (Sudoku.make_sudoku_graph clues')
     = Nx.number_of_edges (Sudoku.make_sudoku_graph clues) ∧
   Nx.edges (Sudoku4.make_sudoku_graph clues')
     = Nx.edges (Sudoku4.make_sudoku_graph clues) ∧
   Nx.number_of_edges (Sudoku4.make_sudoku_graph clues')
     = Nx.number_of_edges (Sudoku4.make_sudoku_graph clues)).
Proof.
  split.
  - intros Hfun. split; intros u; unfold Nx.has_edge.
    + apply clue_edges_no_loop; [done|].
      apply grid_edges_no_loop, adjacent9_irrefl.
    + unfold Sudoku4.make_sudoku_graph. rewrite add_clue_edges_4_9.
      apply clue_edges_no_loop; [done|].
      apply grid_edges_no_loop, adjacent4_irrefl.
  - intros clues' Hperm. unfold Nx.number_of_edges.
    assert (Nx.edges (Sudoku.make_sudoku_graph clues')
            = Nx.edges (Sudoku.make_sudoku_graph clues)) as ->
      by by apply add_clue_edges_edges_perm.
    assert (Nx.edges (Sudoku4.make_sudoku_graph clues')
            = Nx.edges (Sudoku4.make_sudoku_graph clues)) as ->
      by by apply add_clue_edges_edges_perm.
    done.
Qed.

Lemma make_sudoku_graph_loops_permutation_witness :
  let clues : list clue := [(0, 4); (2, 1); (7, 2)] in
  (Nx.no_selfloops (Sudoku.make_sudoku_graph clues) ∧
   Nx.no_selfloops (Sudoku4.make_sudoku_graph clues)) ∧
  Nx.edges (Sudoku4.make_sudoku_graph [(7, 2); (0, 4); (2, 1)])
  = Nx.edges (Sudoku4.make_sudoku_graph clues).
Proof.
  intros clues.
  destruct (make_sudoku_graph_loops_permutation clues) as [Hloops Hperm].
  split.
  - apply Hloops. intros x y1 y2 H1 H2.
    repeat (apply elem_of_cons in H1 as [H1|H1]; [injection H1 as -> ->|]);
      [..|by apply elem_of_nil in H1];
      (repeat (apply elem_of_cons in H2 as [H2|H2]; [injection H2 as ?|]);
       [..|by apply elem_of_nil in H2]); lia.
  - apply (Hperm [(7, 2); (0, 4); (2, 1)]).
    change clues with ([(0, 4); (2, 1)] ++ [(7, 2)]).
    apply Permutation_app_comm.
Defined.

(** ** The scorer *)

Section Scorer.

Implicit Types (a : list Z) (e : Z * Z).

(** The pairs the scorer walks through. *)
Local Abbreviation adjacent_pairs :=
  (List.filter (λ e : Z * Z, Sudoku.adjacent e.1 e.2)
               (Py.combinations2 (Py.range 81))).

Lemma elem_of_adjacent_pairs i j :
  (i, j) ∈ adjacent_pairs ↔
  0 ≤ i < j ∧ j < 81 ∧ Sudoku.adjacent i j = true.
Proof.
  rewrite list_elem_of_In, filter_In, <- list_elem_of_In.
  rewrite elem_of_combinations2_range. cbn. tauto.
Qed.

Lemma NoDup_List_filter {A} (p : A → bool) (l : list A) :
  NoDup l → NoDup (List.filter p l).
Proof.
  induction 1 as [|x l Hx Hl IH]; cbn; [constructor|].
  destruct (p x); [|done]. constructor; [|done].
  by intros [?%list_elem_of_In _]%list_elem_of_In%filter_In.
Qed.

Lemma adjacent_pairs_NoDup : NoDup adjacent_pairs.
Proof. apply NoDup_List_filter, combinations2_NoDup, NoDup_seqZ. Qed.

(** Summing booleans counts the true ones. *)
Lemma sum_b2z {A} (p : A → bool) (l : list A) :
  Py.sum ((λ x, Z.b2z (p x)) <$> l) = Z.of_nat (length (List.filter p l)).
Proof.
  unfold Py.sum.
  assert (∀ acc, foldl Z.add acc ((λ x, Z.b2z (p x)) <$> l)
                 = acc + Z.of_nat (length (List.filter p l))) as Hacc.
  { induction l as [|x l IH]; intros acc; cbn; [lia|].
    rewrite IH. destruct (p x); cbn [Z.b2z length]; lia. }
  by rewrite Hacc.
Qed.

Lemma getitem_in_range a i :
  0 ≤ i < Z.of_nat (length a) →
  Py.getitem a i = mret (a !!! Z.to_nat i).
Proof.
  intros Hi. unfold Py.getitem.
  destruct (Z.ltb_spec i 0) as [|_]; [lia|].
  destruct (Z.ltb_spec i 0) as [|_]; [lia|].
  by rewrite list_lookup_lookup_total_lt by lia.
Qed.

(** On a list of 81 digits no index is out of range, and the cost is
    the number of adjacent pairs with equal digits. *)
Lemma cost_filter a :
  length a = 81%nat →
  Sudoku.cost a
  = mret (Z.of_nat (length
      (List.filter (λ e, a !!! Z.to_nat e.1 =? a !!! Z.to_nat e.2)
                   adjacent_pairs))).
Proof.
  intros Hlen. unfold Sudoku.cost.
  rewrite (mapM_result_ok _
    (λ e, Z.b2z (a !!! Z.to_nat e.1 =? a !!! Z.to_nat e.2))).
  { cbn. by rewrite sum_b2z. }
  intros [i j] (? & ? & _)%elem_of_adjacent_pairs. cbn [fst snd].
  by rewrite !getitem_in_range by lia.
Qed.

(** The code's adjacency is "two different cells of a common unit". *)
Lemma adjacent_share_unit_check :
  forallb (λ i, forallb (λ j,
      Bool.eqb (Sudoku.adjacent i j) (negb (i =? j) && Rules.share_unit i j))
    (seqZ 0 81)) (seqZ 0 81) = true.
Proof. vm_compute. reflexivity. Qed.

Lemma adjacent_share_unit i j :
  0 ≤ i < 81 → 0 ≤ j < 81 →
  Sudoku.adjacent i j = negb (i =? j) && Rules.share_unit i j.
Proof.
  intros Hi Hj. pose proof adjacent_share_unit_check as Hall.
  rewrite forallb_forall in Hall.
  specialize (Hall i). rewrite forallb_forall in Hall.
  apply Bool.eqb_prop, Hall; apply list_elem_of_In, elem_of_seqZ; lia.
Qed.

Lemma share_unit_spec i j :
  Rules.share_unit i j = true ↔ ∃ u, u ∈ Rules.units ∧ i ∈ u ∧ j ∈ u.
Proof.
  unfold Rules.share_unit. rewrite existsb_exists.
  assert (∀ (k : Z) u, existsb (Z.eqb k) u = true ↔ k ∈ u) as Hmem.
  { intros k u. rewrite existsb_exists. split.
    - intros (x & ?%list_elem_of_In & ->%Z.eqb_eq). done.
    - intros ?. exists k. by rewrite <- list_elem_of_In, Z.eqb_refl. }
  split.
  - intros (u & ?%list_elem_of_In & [??]%andb_true_iff).
    exists u. by rewrite <- !Hmem.
  - intros (u & ? & ? & ?). exists u.
    by rewrite <- list_elem_of_In, andb_true_iff, !Hmem.
Qed.

Lemma units_in_range u i : u ∈ Rules.units → i ∈ u → 0 ≤ i < 81.
Proof.
  intros Hu Hi.
  assert (forallb (forallb (λ i, (0 <=? i) && (i <? 81))) Rules.units
          = true) as Hb by (vm_compute; reflexivity).
  rewrite forallb_forall in Hb. apply list_elem_of_In, Hb in Hu.
  rewrite forallb_forall in Hu. apply list_elem_of_In, Hu in Hi. lia.
Qed.

(** Equal images at two places of a list without repeated images. *)
Lemma NoDup_fmap_eq {A B} (f : A → B) (l : list A) x y :
  NoDup (f <$> l) → x ∈ l → y ∈ l → f x = f y → x = y.
Proof.
  induction l as [|z l IH]; [by intros _ ?%elem_of_nil|].
  rewrite fmap_cons, NoDup_cons.
  intros [Hz Hl] [->|Hx]%elem_of_cons [->|Hy]%elem_of_cons Hxy; [done|..].
  - destruct Hz. rewrite Hxy. by apply list_elem_of_fmap_2.
  - destruct Hz. rewrite <- Hxy. by apply list_elem_of_fmap_2.
  - by apply IH.
Qed.

End Scorer.

(** C1.  On a sequence of 81 digits [cost] returns the number of pairs of
    cell indices [i < j < 81] that are adjacent and hold equal digits
    (there is a duplicate-free list of exactly those pairs, and the cost is
    its length).  Hence the cost of a fully correct solution is 0, and
    the cost of a solution with a row, column or block duplicate is
    strictly positive. *)
Theorem cost_counts_conflicts (a : list Z) :
  length a = 81%nat →
  (∃ conflicts : list (Z * Z),
     NoDup conflicts ∧
     (∀ i j, (i, j) ∈ conflicts ↔
             0 ≤ i < j ∧ j < 81 ∧ Sudoku.adjacent i j = true
             ∧ a !! Z.to_nat i = a !! Z.to_nat j) ∧
     Sudoku.cost a = mret (Z.of_nat (length conflicts))) ∧
  (Rules.correct a → Sudoku.cost a = mret 0) ∧
  (Rules.duplicate a → ∃ n, Sudoku.cost a = mret n ∧ 0 < n).
Proof.
  intros Hlen.
  set (conflicts :=
         List.filter (λ e : Z * Z, a !!! Z.to_nat e.1 =? a !!! Z.to_nat e.2)
           (List.filter (λ e : Z * Z, Sudoku.adjacent e.1 e.2)
                        (Py.combinations2 (Py.range 81)))).
  assert (∀ i j, (i, j) ∈ conflicts ↔
                 0 ≤ i < j ∧ j < 81 ∧ Sudoku.adjacent i j = true
                 ∧ a !! Z.to_nat i = a !! Z.to_nat j) as Hmem.
  { intros i j. unfold conflicts.
    rewrite list_elem_of_In, filter_In, <- list_elem_of_In.
    rewrite elem_of_adjacent_pairs. cbn [fst snd]. rewrite Z.eqb_eq.
    split.
    - intros ((? & ? & ?) & Heq). repeat (split; [done || lia|]).
      by rewrite !list_lookup_lookup_total_lt, Heq by lia.
    - intros (? & ? & ? & Heq). split; [done|].
      rewrite !list_lookup_lookup_total_lt in Heq by lia. by injection Heq. }
  assert (Sudoku.cost a = mret (Z.of_nat (length conflicts))) as Hcost
    by by apply cost_filter.
  assert (NoDup conflicts) as Hnodup
    by apply NoDup_List_filter, adjacent_pairs_NoDup.
  clearbody conflicts. split; [|split].
  - by exists conflicts.
  - intros [_ Hunits]. rewrite Hcost.
    destruct conflicts as [|[i j] rest]; [done|]. exfalso.
    assert ((i, j) ∈ (i, j) :: rest) as (Hij & Hj & Hadj & Heq)%Hmem
      by by left.
    rewrite adjacent_share_unit in Hadj by lia.
    apply andb_true_iff in Hadj as [_ (u & Hu & Hiu & Hju)%share_unit_spec].
    assert (i = j); [|lia].
    apply (NoDup_fmap_eq (λ i, a !!! Z.to_nat i) u); [|done..|].
    + rewrite (Hunits u Hu). apply NoDup_seqZ.
    + rewrite !list_lookup_lookup_total_lt in Heq by lia. by injection Heq.
  - intros (u & i & j & v & Hu & Hiu & Hju & Hne & Hi & Hj).
    exists (Z.of_nat (length conflicts)). split; [done|].
    pose proof (units_in_range u i Hu Hiu). pose proof (units_in_range u j Hu Hju).
    assert (Rules.share_unit i j = true ∧ Rules.share_unit j i = true) as [Hs Hs'].
    { split; apply share_unit_spec; exists u; done. }
    assert ((Z.min i j, Z.max i j) ∈ conflicts) as Hin.
    { apply Hmem. destruct (Z.lt_total i j) as [?|[?|?]]; [|done|].
      - rewrite Z.min_l, Z.max_r by lia. rewrite adjacent_share_unit by lia.
        rewrite Hs, Hi, Hj. destruct (Z.eqb_spec i j); [lia|]. cbn.
        repeat split; lia.
      - rewrite Z.min_r, Z.max_l by lia. rewrite adjacent_share_unit by lia.
        rewrite Hs', Hi, Hj. destruct (Z.eqb_spec j i); [lia|]. cbn.
        repeat split; lia. }
    destruct conflicts; [by apply elem_of_nil in Hin | cbn; lia].
Qed.

Lemma cost_counts_conflicts_witness :
  let a : list Z :=
    [5;3;4;6;7;8;9;1;2;  6;7;2;1;9;5;3;4;8;  1;9;8;3;4;2;5;6;7;
     8;5;9;7;6;1;4;2;3;  4;2;6;8;5;3;7;9;1;  7;1;3;9;2;4;8;5;6;
     9;6;1;5;3;7;2;8;4;  2;8;7;4;1;9;6;3;5;  3;4;5;2;8;6;1;7;9] in
  Sudoku.cost a = mret 0 ∧
  ∃ n, Sudoku.cost (<[1%nat := 5]> a) = mret n ∧ 0 < n.
Proof.
  intros a. split.
  - apply (proj1 (proj2 (cost_counts_conflicts a eq_refl))).
    split; [reflexivity|]. intros u Hu.
    repeat (apply elem_of_cons in Hu as [-> | Hu];
            [apply (bool_decide_unpack _); vm_compute; reflexivity|]).
    by apply elem_of_nil in Hu.
  - assert (length (<[1%nat := 5]> a) = 81%nat) as Hlen
      by (vm_compute; reflexivity).
    apply (proj2 (proj2 (cost_counts_conflicts (<[1%nat := 5]> a) Hlen))).
    exists (Rules.row 0), 0, 1, 5.
    repeat split; try reflexivity; try lia; unfold Rules.row; set_solver.
Defined.

(** ** The clue extractor *)

Section ClueExtractor.

Implicit Types (board : list ascii) (c : ascii) (real : list clue).

Lemma ord_zero c : Py.ord c = 48 → c = "0"%char.
Proof.
  unfold Py.ord. intros Hc. rewrite <- (ascii_N_embedding c).
  replace (N_of_ascii c) with 48%N by lia. reflexivity.
Qed.

(** The value of a decimal digit other than ['0'] lies in 1..9. *)
Lemma int_nonzero_digit c d :
  c ≠ "0"%char → Py.int c = mret d → 1 ≤ d ≤ 9.
Proof.
  unfold Py.int, Py.isdecimal. intros Hc.
  destruct (Z.leb_spec 48 (Py.ord c)), (Z.leb_spec (Py.ord c) 57);
    cbn; intros [= <-].
  assert (Py.ord c ≠ 48) by (intros ?; by apply Hc, ord_zero). lia.
Qed.

Lemma int_decimal c : Py.isdecimal c = true → Py.int c = mret (Py.ord c - 48).
Proof. unfold Py.int. by intros ->. Qed.

(** When [int] accepts every character that [isdigit] accepts, the list
    comprehension returns, with one clue for each non-zero digit. *)
Lemma real_clues_ok board (i0 : Z) :
  (∀ c, c ∈ board → Py.isdigit c = true → Py.isdecimal c = true) →
  ∃ real,
    Sudoku.real_clues i0 board = mret real ∧
    ∀ i d, (i, d) ∈ real ↔
           ∃ c, i0 ≤ i ∧ board !! Z.to_nat (i - i0) = Some c
                ∧ Py.isdigit c = true ∧ c ≠ "0"%char ∧ Py.int c = mret d.
Proof.
  revert i0. induction board as [|x rest IH]; intros i0 Hdec.
  { exists []. split; [done|]. intros i d. split.
    - by intros ?%elem_of_nil.
    - by intros (c & _ & ? & _). }
  destruct (IH (i0 + 1)) as (real & Hreal & Hmem).
  { intros c ?. apply Hdec. by right. }
  assert (∀ i c, i0 + 1 ≤ i ∧ rest !! Z.to_nat (i - (i0 + 1)) = Some c
                 ↔ i0 < i ∧ (x :: rest) !! Z.to_nat (i - i0) = Some c)
    as Hshift.
  { intros i c. split; intros [? Hc]; (split; [lia|]).
    - replace (Z.to_nat (i - i0)) with (S (Z.to_nat (i - (i0 + 1)))) by lia.
      done.
    - replace (Z.to_nat (i - i0)) with (S (Z.to_nat (i - (i0 + 1)))) in Hc
        by lia.
      done. }
  assert (∀ i d,
    (i, d) ∈ real ↔
    ∃ c, i0 < i ∧ (x :: rest) !! Z.to_nat (i - i0) = Some c
         ∧ Py.isdigit c = true ∧ c ≠ "0"%char ∧ Py.int c = mret d) as Hrest.
  { intros i d. rewrite Hmem. split; intros (c & ? & ? & ?); exists c.
    - destruct (proj1 (Hshift i c)); [done|]. tauto.
    - destruct (proj2 (Hshift i c)); [done|]. tauto. }
  clear Hmem Hshift.
  cbn [Sudoku.real_clues]. rewrite Hreal.
  destruct (Py.isdigit x && negb (Ascii.eqb x "0")) eqn:Hx.
  - apply andb_true_iff in Hx as [Hdig Hnz].
    apply negb_true_iff, Ascii.eqb_neq in Hnz.
    assert (Py.int x = mret (Py.ord x - 48)) as Hint
      by (apply int_decimal, Hdec; [by left | done]).
    rewrite Hint. cbn.
    eexists. split; [done|]. intros i d.
    rewrite elem_of_cons, Hrest. split.
    + intros [[= -> ->] | (c & ? & ?)].
      * exists x. rewrite Z.sub_diag. cbn. split; [lia|]. tauto.
      * exists c. split; [lia | done].
    + intros (c & Hi & Hc & Hcdig & Hcnz & Hcint).
      destruct (decide (i = i0)) as [->|].
      * left. rewrite Z.sub_diag in Hc. cbn in Hc. injection Hc as <-.
        rewrite Hint in Hcint. by injection Hcint as <-.
      * right. exists c. split; [lia | done].
  - exists real. split; [done|]. intros i d. rewrite Hrest. split.
    + intros (c & ? & ?). exists c. split; [lia | done].
    + intros (c & Hi & Hc & Hcdig & Hcnz & Hcint).
      destruct (decide (i = i0)) as [->|].
      * rewrite Z.sub_diag in Hc. cbn in Hc. injection Hc as <-.
        rewrite Hcdig in Hx. cbn in Hx.
        apply negb_false_iff, Ascii.eqb_eq in Hx. done.
      * exists c. split; [lia | done].
Qed.

Lemma range_1_10 : Py.range_step 1 10 1 = seqZ 1 9.
Proof. reflexivity. Qed.

End ClueExtractor.

(** C4.  The code falls short of the claim.  The guard of [make_clues],
    [x.isdigit() and x != '0'], is there to make [int(x)] safe, but
    [isdigit] also accepts characters that [int] rejects.  On the
    81-character grid that starts with SUPERSCRIPT TWO (code point 178)
    and goes on with eighty dots, [make_clues] raises [ValueError]
    whatever the iteration order of sets, where the claim promises a clue
    list with the values 1..9. *)
Theorem make_clues_superscript_raises :
  let board := String (ascii_of_N 178) (String.concat "" (replicate 80 "."%string)) in
  String.length board = 81%nat ∧
  Py.isdigit (ascii_of_N 178) = true ∧
  Py.int (ascii_of_N 178) = Py.raise Py.ValueError ∧
  ∀ set_iter, Sudoku.make_clues set_iter board = Py.raise Py.ValueError.
Proof.
  intros board. split; [reflexivity|]. split; [reflexivity|].
  split; [reflexivity|]. intros set_iter. vm_compute. reflexivity.
Qed.

(** X17.  For an 81-character grid in which every character accepted by
    [isdigit] is one of the decimal digits '0'..'9', and an iteration
    over sets that enumerates their elements,
    [make_clues] returns the real clues followed by the phantom clues:
    a real clue [(i, int(x))] for each character [x] at index [i < 81]
    that is a digit other than '0'; one phantom clue for each value of
    1..9 missing among the real clues, at the indices 81, 82, ... in the
    order in which the set of missing values is iterated; and the values
    of the clues are exactly 1..9. *)
Theorem make_clues_values (set_iter : gset Z → list Z) (board : string) :
  (∀ s, set_iter s ≡ₚ elements s) →
  String.length board = 81%nat →
  (∀ c, c ∈ list_ascii_of_string board →
        Py.isdigit c = true → Py.isdecimal c = true) →
  ∃ real phantoms,
    Sudoku.make_clues set_iter board
    = mret (real ++ imap (λ k v, (81 + Z.of_nat k, v)) phantoms) ∧
    (∀ i d, (i, d) ∈ real ↔
            ∃ c, 0 ≤ i < 81 ∧ list_ascii_of_string board !! Z.to_nat i = Some c
                 ∧ Py.isdigit c = true ∧ c ≠ "0"%char ∧ Py.int c = mret d) ∧
    NoDup phantoms ∧
    (∀ v, v ∈ phantoms ↔ 1 ≤ v ≤ 9 ∧ ∀ i, (i, v) ∉ real) ∧
    (∀ v, (∃ i, (i, v) ∈ real ++ imap (λ k v, (81 + Z.of_nat k, v)) phantoms)
          ↔ 1 ≤ v ≤ 9).
Proof.
  intros Hiter Hlen Hdec.
  destruct (real_clues_ok (list_ascii_of_string board) 0 Hdec)
    as (real & Hreal & Hmem).
  set (missing := (list_to_set (Py.range_step 1 10 1)
                   ∖ list_to_set (real.*2) : gset Z)).
  assert (∀ v, v ∈ set_iter missing ↔ 1 ≤ v ≤ 9 ∧ ∀ i, (i, v) ∉ real)
    as Hmissing.
  { intros v. rewrite (Hiter missing), elem_of_elements. unfold missing.
    rewrite elem_of_difference, !elem_of_list_to_set, range_1_10, elem_of_seqZ.
    rewrite list_elem_of_fmap. split.
    - intros [? Hno]. split; [lia|]. intros i Hin. apply Hno. by exists (i, v).
    - intros [? Hno]. split; [lia|]. intros ([i v'] & -> & Hin). by apply (Hno i). }
  assert (∀ i d, (i, d) ∈ real → 1 ≤ d ≤ 9) as Hvalues.
  { intros i d (c & _ & _ & _ & ? & ?)%Hmem. by apply (int_nonzero_digit c). }
  exists real, (set_iter missing).
  split; [|split; [|split; [|split]]].
  - unfold Sudoku.make_clues. by rewrite Hreal.
  - intros i d. rewrite Hmem. rewrite Z.sub_0_r.
    split; intros (c & Hi & Hc & ?); exists c; (split; [|done]); [|lia].
    apply lookup_lt_Some in Hc.
    assert (length (list_ascii_of_string board) = 81%nat) as Hlen'.
    { rewrite <- Hlen. clear. induction board; cbn; by f_equal. }
    lia.
  - rewrite (Hiter missing). apply NoDup_elements.
  - done.
  - intros v. split.
    + intros (i & [Hin | Hin]%elem_of_app); [by apply (Hvalues i)|].
      apply elem_of_lookup_imap in Hin as (k & w & [= _ ->] & Hw).
      apply list_elem_of_lookup_2, Hmissing in Hw. tauto.
    + intros Hv. destruct (decide (v ∈ real.*2)) as [Hin | Hout].
      * apply list_elem_of_fmap in Hin as ([i v'] & -> & Hin).
        exists i. apply elem_of_app. by left.
      * assert (v ∈ set_iter missing) as (k & Hk)%list_elem_of_lookup_1.
        { apply Hmissing. split; [done|]. intros i Hin. apply Hout.
          apply list_elem_of_fmap. by exists (i, v). }
        exists (81 + Z.of_nat k). apply elem_of_app. right.
        by apply (elem_of_lookup_imap_2 (λ k v, (81 + Z.of_nat k, v))).
Qed.

Lemma make_clues_values_witness :
  let board : string :=
    "..1.......6.8..3...8....5461..64.8.....132.....7.98..4653....1...9..4.5.......2.." in
  ∃ real phantoms,
    Sudoku.make_clues elements board
    = mret (real ++ imap (λ k v, (81 + Z.of_nat k, v)) phantoms) ∧
    (∀ i d, (i, d) ∈ real ↔
            ∃ c, 0 ≤ i < 81 ∧ list_ascii_of_string board !! Z.to_nat i = Some c
                 ∧ Py.isdigit c = true ∧ c ≠ "0"%char ∧ Py.int c = mret d) ∧
    NoDup phantoms ∧
    (∀ v, v ∈ phantoms ↔ 1 ≤ v ≤ 9 ∧ ∀ i, (i, v) ∉ real) ∧
    (∀ v, (∃ i, (i, v) ∈ real ++ imap (λ k v, (81 + Z.of_nat k, v)) phantoms)
          ↔ 1 ≤ v ≤ 9).
Proof.
  intros board. apply (make_clues_values elements board).
  - intros s. reflexivity.
  - reflexivity.
  - intros c Hc.
    assert (forallb (λ c, implb (Py.isdigit c) (Py.isdecimal c))
                    (list_ascii_of_string board) = true) as Hall
      by (vm_compute; reflexivity).
    rewrite forallb_forall in Hall. apply list_elem_of_In, Hall in Hc.
    destruct (Py.isdigit c); [|done]. by intros _.
Defined.

(** ** The shape of the constraint graph *)

Section GraphShape.

Implicit Types (G : Nx.Graph) (clues : list clue) (u v : Z).

Lemma edge_eq u v a b :
  Nx.edge u v = Nx.edge a b ↔ (u = a ∧ v = b) ∨ (u = b ∧ v = a).
Proof.
  unfold Nx.edge. split.
  - intros [= Hmin Hmax]. lia.
  - intros [[-> ->] | [-> ->]]; [done|]. f_equal; lia.
Qed.

(** The edges laid between the cells of the grid. *)
Lemma grid_edges (adj : Z → Z → bool) (n u v : Z) :
  (∀ i j, adj i j = adj j i) → (∀ i, adj i i = false) →
  Nx.edge u v ∈ Nx.edges
    (Nx.add_edges_from
       (List.filter (λ e : Z * Z, adj e.1 e.2) (Py.combinations2 (Py.range n)))
       Nx.empty)
  ↔ 0 ≤ u < n ∧ 0 ≤ v < n ∧ adj u v = true.
Proof.
  intros Hsym Hirr. rewrite edges_add_edges_from. split.
  - intros [[]%elem_of_empty | (i & j & Hin & Heq)].
    apply list_elem_of_In, filter_In in Hin as [Hin%list_elem_of_In Hadj].
    apply elem_of_combinations2_range in Hin. cbn in Hadj.
    apply edge_eq in Heq as [[-> ->] | [-> ->]]; [|rewrite Hsym];
      (split; [lia|]; split; [lia | done]).
  - intros (Hu & Hv & Hadj). right.
    assert (u ≠ v) by (intros ->; by rewrite Hirr in Hadj).
    destruct (Z.lt_total u v) as [?|[?|?]]; [|done|].
    + exists u, v. split; [|done].
      apply list_elem_of_In, filter_In. split; [|done].
      apply list_elem_of_In, elem_of_combinations2_range. lia.
    + exists v, u. split; [|apply edge_comm].
      apply list_elem_of_In, filter_In. split; [|cbn; by rewrite Hsym].
      apply list_elem_of_In, elem_of_combinations2_range. lia.
Qed.

(** The edges laid between clues. *)
Lemma clue_edges clues G u v :
  Nx.edge u v ∈ Nx.edges (Sudoku.add_clue_edges clues G) ↔
  Nx.edge u v ∈ Nx.edges G ∨
  ∃ y1 y2, (u, y1) ∈ clues ∧ (v, y2) ∈ clues ∧ y1 ≠ y2.
Proof.
  rewrite edges_add_clue_edges. split; (intros [?|H]; [by left | right]).
  - destruct H as ([x1 y1] & [x2 y2] & H1 & H2 & Hne & Heq). cbn in *.
    apply edge_eq in Heq as [[-> ->] | [-> ->]].
    + by exists y1, y2.
    + exists y2, y1. by repeat split.
  - destruct H as (y1 & y2 & H1 & H2 & Hne).
    exists (u, y1), (v, y2). by repeat split.
Qed.

Lemma nodes_add_edges_from es G u :
  u ∈ Nx.nodes (Nx.add_edges_from es G) ↔
  u ∈ Nx.nodes G ∨ ∃ a b, (a, b) ∈ es ∧ (u = a ∨ u = b).
Proof.
  unfold Nx.add_edges_from. revert G.
  induction es as [|[a b] es IH]; intros G; cbn [foldl].
  { split; [by left | intros [|(? & ? & ?%elem_of_nil & _)]; done]. }
  rewrite IH. cbn [Nx.add_edge Nx.nodes fst snd]. split.
  - intros [Hu|(a' & b' & ? & ?)].
    + apply elem_of_union in Hu as [Hu|?]; [right | by left].
      exists a, b. split; [by left|].
      by apply elem_of_union in Hu as [?%elem_of_singleton|?%elem_of_singleton];
        [left | right].
    + right. exists a', b'. split; [by right | done].
  - intros [?|(a' & b' & [[= -> ->]|?]%elem_of_cons & Hu)].
    + left. apply elem_of_union. by right.
    + left. apply elem_of_union. left.
      rewrite elem_of_union, !elem_of_singleton. done.
    + right. by exists a', b'.
Qed.

Lemma nodes_add_clue_edges clues G u :
  u ∈ Nx.nodes (Sudoku.add_clue_edges clues G) ↔
  u ∈ Nx.nodes G ∨
  ∃ y x' y', (u, y) ∈ clues ∧ (x', y') ∈ clues ∧ y ≠ y'.
Proof.
  unfold Sudoku.add_clue_edges.
  assert (∀ ps G,
    u ∈ Nx.nodes (foldl (λ G (cc : clue * clue),
                     let (c1, c2) := cc in
                     if negb (c1.2 =? c2.2) then Nx.add_edge c1.1 c2.1 G else G)
                   G ps) ↔
    u ∈ Nx.nodes G ∨
    ∃ c1 c2, (c1, c2) ∈ ps ∧ c1.2 ≠ c2.2 ∧ (u = c1.1 ∨ u = c2.1)) as Hfold.
  { induction ps as [|[c1 c2] ps IH]; intros G0; cbn [foldl].
    { split; [by left | intros [|(? & ? & ?%elem_of_nil & _)]; done]. }
    rewrite IH. split.
    - intros [Hu|(c1' & c2' & ? & ?)].
      + destruct (Z.eqb_spec c1.2 c2.2) as [|Hne]; cbn in Hu; [by left|].
        apply elem_of_union in Hu as [Hu|?]; [right | by left].
        exists c1, c2. split; [by left|]. split; [done|].
        by apply elem_of_union in Hu
          as [?%elem_of_singleton|?%elem_of_singleton]; [left | right].
      + right. exists c1', c2'. split; [by right | done].
    - intros [?|(c1' & c2' & [[= -> ->]|?]%elem_of_cons & Hne & Hu)].
      + left. destruct (Z.eqb_spec c1.2 c2.2); cbn; [done|].
        apply elem_of_union. by right.
      + left. destruct (Z.eqb_spec c1.2 c2.2); cbn; [done|].
        apply elem_of_union. left.
        rewrite elem_of_union, !elem_of_singleton. done.
      + right. by exists c1', c2'. }
  rewrite Hfold. split; (intros [?|H]; [by left | right]).
  - destruct H as ([x1 y1] & [x2 y2] & [??]%combinations2_elem_of & Hne & Hu).
    cbn in *. destruct Hu as [-> | ->].
    + by exists y1, x2, y2.
    + exists y2, x1, y1. by repeat split.
  - destruct H as (y & x' & y' & H1 & H2 & Hne).
    destruct (combinations2_total (u, y) (x', y') clues) as [?|?];
      [done | done | congruence | |].
    + exists (u, y), (x', y'). split; [done|]. split; [done | by left].
    + exists (x', y'), (u, y). split; [done|]. split; [cbn; congruence | by right].
Qed.

(** Every cell of either grid has an adjacent cell in the grid. *)
Lemma adjacent9_neighbour u :
  0 ≤ u < 81 → ∃ v, 0 ≤ v < 81 ∧ Sudoku.adjacent u v = true.
Proof.
  intros Hu.
  assert (forallb (λ u, existsb (Sudoku.adjacent u) (seqZ 0 81)) (seqZ 0 81)
          = true) as Hall by (vm_compute; reflexivity).
  rewrite forallb_forall in Hall.
  assert (In u (seqZ 0 81)) as Hin by (apply list_elem_of_In, elem_of_seqZ; lia).
  apply Hall, existsb_exists in Hin as (v & Hv%list_elem_of_In%elem_of_seqZ & Hadj).
  exists v. split; [lia | done].
Qed.

Lemma adjacent4_neighbour u :
  0 ≤ u < 16 → ∃ v, 0 ≤ v < 16 ∧ Sudoku4.adjacent u v = true.
Proof.
  intros Hu.
  assert (forallb (λ u, existsb (Sudoku4.adjacent u) (seqZ 0 16)) (seqZ 0 16)
          = true) as Hall by (vm_compute; reflexivity).
  rewrite forallb_forall in Hall.
  assert (In u (seqZ 0 16)) as Hin by (apply list_elem_of_In, elem_of_seqZ; lia).
  apply Hall, existsb_exists in Hin as (v & Hv%list_elem_of_In%elem_of_seqZ & Hadj).
  exists v. split; [lia | done].
Qed.

(** The nodes brought in by the edges between the cells of the grid. *)
Lemma grid_nodes (adj : Z → Z → bool) (n u : Z) :
  (∀ i j, adj i j = adj j i) →
  (∀ i, 0 ≤ i < n → ∃ j, 0 ≤ j < n ∧ adj i j = true) →
  (∀ i, adj i i = false) →
  u ∈ Nx.nodes
    (Nx.add_edges_from
       (List.filter (λ e : Z * Z, adj e.1 e.2) (Py.combinations2 (Py.range n)))
       Nx.empty)
  ↔ 0 ≤ u < n.
Proof.
  intros Hsym Hnb Hirr. rewrite nodes_add_edges_from. split.
  - intros [[]%elem_of_empty | (i & j & Hin & Heq)].
    apply list_elem_of_In, filter_In in Hin as [Hin%list_elem_of_In _].
    apply elem_of_combinations2_range in Hin. lia.
  - intros Hu. right. destruct (Hnb u Hu) as (v & Hv & Hadj).
    assert (u ≠ v) by (intros ->; by rewrite Hirr in Hadj).
    destruct (Z.lt_total u v) as [?|[?|?]]; [|done|].
    + exists u, v. split; [|by left].
      apply list_elem_of_In, filter_In. split; [|done].
      apply list_elem_of_In, elem_of_combinations2_range. lia.
    + exists v, u. split; [|by right].
      apply list_elem_of_In, filter_In. split; [|cbn; by rewrite Hsym].
      apply list_elem_of_In, elem_of_combinations2_range. lia.
Qed.

End GraphShape.

(** X1.  The edges of the constraint graph, in both variants: two nodes
    are joined exactly when they are adjacent cells of the grid, or the
    cells of two clues with different values. *)
Theorem make_sudoku_graph_edges (clues : list clue) (u v : Z) :
  (Nx.has_edge (Sudoku.make_sudoku_graph clues) u v ↔
   (0 ≤ u < 81 ∧ 0 ≤ v < 81 ∧ Sudoku.adjacent u v = true) ∨
   (∃ y1 y2, (u, y1) ∈ clues ∧ (v, y2) ∈ clues ∧ y1 ≠ y2)) ∧
  (Nx.has_edge (Sudoku4.make_sudoku_graph clues) u v ↔
   (0 ≤ u < 16 ∧ 0 ≤ v < 16 ∧ Sudoku4.adjacent u v = true) ∨
   (∃ y1 y2, (u, y1) ∈ clues ∧ (v, y2) ∈ clues ∧ y1 ≠ y2)).
Proof.
  unfold Nx.has_edge, Sudoku.make_sudoku_graph, Sudoku4.make_sudoku_graph.
  cbv zeta. split.
  - rewrite clue_edges, grid_edges;
      [done | apply adjacent9_sym | apply adjacent9_irrefl].
  - change Sudoku4.add_clue_edges with Sudoku.add_clue_edges.
    rewrite clue_edges, grid_edges;
      [done | apply adjacent4_sym | apply adjacent4_irrefl].
Qed.

(** X2.  The nodes of the constraint graph, in both variants: every cell of
    the grid, and beyond the grid the cell of a clue only when some other
    clue carries a different value (a node enters the graph through an
    edge, so a clue without such a partner stays out of it). *)
Theorem make_sudoku_graph_nodes (clues : list clue) (u : Z) :
  (u ∈ Nx.nodes (Sudoku.make_sudoku_graph clues) ↔
   0 ≤ u < 81 ∨ ∃ y x' y', (u, y) ∈ clues ∧ (x', y') ∈ clues ∧ y ≠ y') ∧
  (u ∈ Nx.nodes (Sudoku4.make_sudoku_graph clues) ↔
   0 ≤ u < 16 ∨ ∃ y x' y', (u, y) ∈ clues ∧ (x', y') ∈ clues ∧ y ≠ y').
Proof.
  unfold Sudoku.make_sudoku_graph, Sudoku4.make_sudoku_graph.
  cbv zeta. split.
  - rewrite nodes_add_clue_edges, grid_nodes;
      [done | apply adjacent9_sym | apply adjacent9_neighbour
      | apply adjacent9_irrefl].
  - change Sudoku4.add_clue_edges with Sudoku.add_clue_edges.
    rewrite nodes_add_clue_edges, grid_nodes;
      [done | apply adjacent4_sym | apply adjacent4_neighbour
      | apply adjacent4_irrefl].
Qed.

Section GraphSize.

(** The graphs before the clues are looked at. *)
Local Abbreviation grid9 :=
  (Nx.add_edges_from
     (List.filter (λ e : Z * Z, Sudoku.adjacent e.1 e.2)
                  (Py.combinations2 (Py.range 81))) Nx.empty).
Local Abbreviation grid4 :=
  (Nx.add_edges_from
     (List.filter (λ e : Z * Z, Sudoku4.adjacent e.1 e.2)
                  (Py.combinations2 (Py.range 16))) Nx.empty).

Lemma grid_graph_size :
  size (Nx.edges grid9) = 810%nat ∧ size (Nx.edges grid4) = 56%nat.
Proof. split; vm_compute; reflexivity. Qed.

Lemma grid_edges_kept (clues : list clue) :
  Nx.edges grid9 ⊆ Nx.edges (Sudoku.make_sudoku_graph clues) ∧
  Nx.edges grid4 ⊆ Nx.edges (Sudoku4.make_sudoku_graph clues).
Proof.
  unfold Sudoku.make_sudoku_graph, Sudoku4.make_sudoku_graph. cbv zeta.
  change Sudoku4.add_clue_edges with Sudoku.add_clue_edges.
  split; intros e He; apply edges_add_clue_edges; left; exact He.
Qed.

Lemma grid_edges_only (clues : list clue) :
  (∀ x1 y1 x2 y2, (x1, y1) ∈ clues → (x2, y2) ∈ clues → y1 = y2) →
  Nx.edges (Sudoku.make_sudoku_graph clues) = Nx.edges grid9 ∧
  Nx.edges (Sudoku4.make_sudoku_graph clues) = Nx.edges grid4.
Proof.
  intros Hsame.
  assert (∀ G e, e ∈ Nx.edges (Sudoku.add_clue_edges clues G) → e ∈ Nx.edges G)
    as Hnone.
  { intros G e [He|([x1 y1] & [x2 y2] & H1 & H2 & Hne & _)]%edges_add_clue_edges;
      [exact He|].
    destruct Hne. exact (Hsame x1 y1 x2 y2 H1 H2). }
  destruct (grid_edges_kept clues) as [Hsub9 Hsub4].
  split; apply set_eq; intros e; split.
  - apply Hnone.
  - apply Hsub9.
  - apply Hnone.
  - apply Hsub4.
Qed.

End GraphSize.

(** X3.  Inside its grid every cell is adjacent to the same number of
    cells: 20 in the 9x9 variant (8 in its row, 8 in its column, 4 more in
    its block), 7 in the 4x4 variant. *)
Theorem adjacent_degree (i : Z) :
  (0 ≤ i < 81 →
   length (List.filter (Sudoku.adjacent i) (Py.range 81)) = 20%nat) ∧
  (0 ≤ i < 16 →
   length (List.filter (Sudoku4.adjacent i) (Py.range 16)) = 7%nat).
Proof.
  split; intros Hi.
  - assert (forallb (λ i, Nat.eqb (length (List.filter (Sudoku.adjacent i)
                                             (Py.range 81))) 20)
                    (seqZ 0 81) = true) as Hall by (vm_compute; reflexivity).
    rewrite forallb_forall in Hall. apply Nat.eqb_eq, Hall.
    apply list_elem_of_In, elem_of_seqZ. lia.
  - assert (forallb (λ i, Nat.eqb (length (List.filter (Sudoku4.adjacent i)
                                             (Py.range 16))) 7)
                    (seqZ 0 16) = true) as Hall by (vm_compute; reflexivity).
    rewrite forallb_forall in Hall. apply Nat.eqb_eq, Hall.
    apply list_elem_of_In, elem_of_seqZ. lia.
Qed.

Lemma adjacent_degree_witness :
  length (List.filter (Sudoku.adjacent 40) (Py.range 81)) = 20%nat ∧
  length (List.filter (Sudoku4.adjacent 5) (Py.range 16)) = 7%nat.
Proof.
  split.
  - apply (proj1 (adjacent_degree 40)). lia.
  - apply (proj2 (adjacent_degree 5)). lia.
Defined.

(** X4.  The constraint graph always holds the edges between adjacent
    cells, 810 of them in the 9x9 variant and 56 in the 4x4 variant; the
    clues can only add edges, and add none when all clues carry the same
    value (in particular when there is no clue). *)
Theorem make_sudoku_graph_size (clues : list clue) :
  (810 ≤ Nx.number_of_edges (Sudoku.make_sudoku_graph clues))%nat ∧
  (56 ≤ Nx.number_of_edges (Sudoku4.make_sudoku_graph clues))%nat ∧
  ((∀ x1 y1 x2 y2, (x1, y1) ∈ clues → (x2, y2) ∈ clues → y1 = y2) →
   Nx.number_of_edges (Sudoku.make_sudoku_graph clues) = 810%nat ∧
   Nx.number_of_edges (Sudoku4.make_sudoku_graph clues) = 56%nat).
Proof.
  unfold Nx.number_of_edges.
  destruct grid_graph_size as [H9 H4].
  destruct (grid_edges_kept clues) as [Hsub9 Hsub4].
  pose proof (subseteq_size _ _ Hsub9) as Hle9. rewrite H9 in Hle9.
  pose proof (subseteq_size _ _ Hsub4) as Hle4. rewrite H4 in Hle4.
  split; [exact Hle9|]. split; [exact Hle4|].
  intros Hsame. destruct (grid_edges_only clues Hsame) as [-> ->].
  exact (conj H9 H4).
Qed.

Lemma make_sudoku_graph_size_witness :
  Nx.number_of_edges (Sudoku.make_sudoku_graph [(0, 5); (81, 5)]) = 810%nat ∧
  Nx.number_of_edges (Sudoku4.make_sudoku_graph [(0, 5); (81, 5)]) = 56%nat.
Proof.
  apply (proj2 (proj2 (make_sudoku_graph_size [(0, 5); (81, 5)]))).
  intros x1 y1 x2 y2 H1 H2.
  repeat (apply elem_of_cons in H1 as [H1|H1]; [injection H1 as -> ->|]);
    [..|by apply elem_of_nil in H1];
    (repeat (apply elem_of_cons in H2 as [H2|H2]; [injection H2 as -> ->|]);
     [..|by apply elem_of_nil in H2]); reflexivity.
Defined.

(** ** More on the scorer *)

Section ScorerEdges.

Implicit Types (a : list Z) (e : Z * Z).

Local Abbreviation adjacent_pairs :=
  (List.filter (λ e : Z * Z, Sudoku.adjacent e.1 e.2)
               (Py.combinations2 (Py.range 81))).

(** The term the scorer adds for one pair. *)
Local Abbreviation term a :=
  (λ e : Z * Z, x ← Py.getitem a e.1; y ← Py.getitem a e.2;
                mret (Z.b2z (x =? y))).

Lemma mapM_result_ext {A B} (f g : A → Py.result B) (l : list A) :
  (∀ x, x ∈ l → f x = g x) → mapM f l = mapM g l.
Proof.
  induction l as [|x l IH]; intros Hl; [done|].
  rewrite !mapM_result_cons, (Hl x), IH; [done | | by left].
  intros y ?. apply Hl. by right.
Qed.

Lemma getitem_only_IndexError {A} (l : list A) i (err : Py.exn) :
  Py.getitem l i = Py.raise err → err = Py.IndexError.
Proof.
  unfold Py.getitem, Py.raise.
  destruct (_ <? 0); [by intros [= <-]|].
  destruct (l !! _); [done | by intros [= <-]].
Qed.

Lemma getitem_beyond {A} (l : list A) i :
  Z.of_nat (length l) ≤ i → Py.getitem l i = Py.raise Py.IndexError.
Proof.
  intros Hi. unfold Py.getitem.
  destruct (Z.ltb_spec i 0) as [|_]; [lia|].
  destruct (Z.ltb_spec i 0) as [|_]; [lia|].
  by rewrite lookup_ge_None_2 by lia.
Qed.

Lemma term_only_IndexError a e (err : Py.exn) :
  term a e = Py.raise err → err = Py.IndexError.
Proof.
  unfold Py.raise.
  destruct (Py.getitem a e.1) as [e1|x] eqn:H1; cbn.
  { intros [= <-]. by apply getitem_only_IndexError in H1. }
  destruct (Py.getitem a e.2) as [e2|y] eqn:H2; cbn; [|done].
  intros [= <-]. by apply getitem_only_IndexError in H2.
Qed.

Lemma adjacent_pairs_length : length adjacent_pairs = 810%nat.
Proof. vm_compute. reflexivity. Qed.

(** A list shorter than the grid makes the scorer raise. *)
Lemma cost_short a :
  (length a < 81)%nat → Sudoku.cost a = Py.raise Py.IndexError.
Proof.
  intros Hlen. unfold Sudoku.cost.
  rewrite (mapM_result_raise _ Py.IndexError); [done| |].
  - exists (72, 80). split.
    + apply elem_of_adjacent_pairs. split; [lia|]. split; [lia | reflexivity].
    + cbn [fst snd]. rewrite (getitem_beyond a 80) by lia.
      destruct (Py.getitem a 72) as [err|x] eqn:H72; [|done].
      by apply getitem_only_IndexError in H72 as ->.
  - intros e err _. apply term_only_IndexError.
Qed.

(** On a list at least as long as the grid no index is out of range. *)
Lemma cost_filter_ge a :
  (81 ≤ length a)%nat →
  Sudoku.cost a
  = mret (Z.of_nat (length
      (List.filter (λ e, a !!! Z.to_nat e.1 =? a !!! Z.to_nat e.2)
                   adjacent_pairs))).
Proof.
  intros Hlen. unfold Sudoku.cost.
  rewrite (mapM_result_ok _
    (λ e, Z.b2z (a !!! Z.to_nat e.1 =? a !!! Z.to_nat e.2))).
  { cbn. by rewrite sum_b2z. }
  intros [i j] (? & ? & _)%elem_of_adjacent_pairs. cbn [fst snd].
  by rewrite !getitem_in_range by lia.
Qed.

Lemma List_filter_ext_in {A} (p q : A → bool) (l : list A) :
  (∀ x, x ∈ l → p x = q x) → List.filter p l = List.filter q l.
Proof.
  induction l as [|x l IH]; intros Hl; [done|]. cbn.
  rewrite (Hl x), IH; [done | | by left]. intros y ?. apply Hl. by right.
Qed.

Lemma List_filter_length_le {A} (p : A → bool) (l : list A) :
  (length (List.filter p l) ≤ length l)%nat.
Proof. induction l as [|x l IH]; cbn; [lia|]. destruct (p x); cbn; lia. Qed.

Lemma List_filter_all {A} (p : A → bool) (l : list A) :
  (∀ x, x ∈ l → p x = true) → List.filter p l = l.
Proof.
  induction l as [|x l IH]; intros Hl; [done|]. cbn.
  rewrite (Hl x), IH; [done | | by left]. intros y ?. apply Hl. by right.
Qed.

Lemma getitem_fmap (f : Z → Z) a i :
  Py.getitem (f <$> a) i = (x ← Py.getitem a i; mret (f x)).
Proof.
  unfold Py.getitem. rewrite length_fmap.
  destruct (_ <? 0); [done|]. rewrite list_lookup_fmap.
  by destruct (a !! _).
Qed.

End ScorerEdges.

(** X5.  [cost] raises [IndexError] on a list shorter than 81 entries; on
    a longer list it returns, and looks at the first 81 entries only. *)
Theorem cost_by_length (a : list Z) :
  ((length a < 81)%nat → Sudoku.cost a = Py.raise Py.IndexError) ∧
  ((81 ≤ length a)%nat →
   (∃ n, Sudoku.cost a = mret n) ∧ Sudoku.cost a = Sudoku.cost (take 81 a)).
Proof.
  split; [apply cost_short|]. intros Hlen.
  rewrite (cost_filter_ge a Hlen). split; [by eexists|].
  rewrite (cost_filter_ge (take 81 a)) by (rewrite length_take; lia).
  do 3 f_equal. apply List_filter_ext_in.
  intros [i j] (? & ? & _)%elem_of_adjacent_pairs. cbn [fst snd].
  by rewrite !lookup_total_take_lt by lia.
Qed.

Lemma cost_by_length_witness :
  Sudoku.cost (replicate 80 1) = Py.raise Py.IndexError ∧
  Sudoku.cost (replicate 90 1) = Sudoku.cost (take 81 (replicate 90 1)).
Proof.
  split.
  - apply (proj1 (cost_by_length (replicate 80 1))). cbn. lia.
  - apply (proj2 (cost_by_length (replicate 90 1))). cbn. lia.
Defined.

(** X6.  The cost is never negative and never exceeds 810, the number of
    pairs of adjacent cells; a grid filled with one digit reaches 810.
    The cost only depends on which entries are equal: replacing every
    digit [x] by [f x] for a one-to-one [f] leaves the result unchanged,
    the [IndexError] of a short list included. *)
Theorem cost_bounds_relabelling (a : list Z) :
  (Sudoku.cost a = Py.raise Py.IndexError ∨
   ∃ n, Sudoku.cost a = mret n ∧ 0 ≤ n ≤ 810) ∧
  (∀ v, Sudoku.cost (replicate 81 v) = mret 810) ∧
  (∀ f : Z → Z, (∀ x y, f x = f y → x = y) →
                Sudoku.cost (f <$> a) = Sudoku.cost a).
Proof.
  split; [|split].
  - destruct (Nat.lt_ge_cases (length a) 81) as [Hlen|Hlen].
    { left. by apply cost_short. }
    right. eexists. split; [by apply cost_filter_ge|].
    pose proof (List_filter_length_le
      (λ e : Z * Z, a !!! Z.to_nat e.1 =? a !!! Z.to_nat e.2)
      (List.filter (λ e : Z * Z, Sudoku.adjacent e.1 e.2)
                   (Py.combinations2 (Py.range 81)))) as Hle.
    rewrite adjacent_pairs_length in Hle. lia.
  - intros v. rewrite cost_filter_ge by (rewrite length_replicate; lia).
    rewrite List_filter_all, adjacent_pairs_length; [done|].
    intros [i j] (? & ? & _)%elem_of_adjacent_pairs. cbn [fst snd].
    rewrite !lookup_total_replicate_2 by lia. apply Z.eqb_refl.
  - intros f Hinj. unfold Sudoku.cost. f_equal.
    apply mapM_result_ext. intros [i j] _. cbn [fst snd].
    rewrite !getitem_fmap.
    destruct (Py.getitem a i) as [|x]; [done|].
    destruct (Py.getitem a j) as [|y]; [done|]. cbn. do 2 f_equal.
    destruct (Z.eqb_spec x y) as [->|Hne]; [apply Z.eqb_refl|].
    apply Z.eqb_neq. intros ?%Hinj. done.
Qed.

Lemma cost_bounds_relabelling_witness :
  Sudoku.cost ((λ x, 10 - x) <$> replicate 81 3) = Sudoku.cost (replicate 81 3).
Proof.
  apply (proj2 (proj2 (cost_bounds_relabelling (replicate 81 3)))).
  intros x y. lia.
Defined.

(** ** More on the clue extractor *)

Section ClueExtractorEdges.

Implicit Types (board : list ascii) (c : ascii) (real clues : list clue).

(** The characters that [isdigit] accepts and [int] rejects. *)
Lemma superscript_digit c :
  Py.isdigit c = true ∧ Py.isdecimal c = false ↔
  Py.ord c = 178 ∨ Py.ord c = 179 ∨ Py.ord c = 185.
Proof.
  unfold Py.isdigit, Py.isdecimal.
  destruct (Z.leb_spec 48 (Py.ord c)), (Z.leb_spec (Py.ord c) 57),
    (Z.eqb_spec (Py.ord c) 178), (Z.eqb_spec (Py.ord c) 179),
    (Z.eqb_spec (Py.ord c) 185); cbn; split; try tauto; try lia;
    intros [? ?]; discriminate.
Qed.

Lemma real_clues_raise board (i0 : Z) :
  (∃ c, c ∈ board ∧ Py.isdigit c = true ∧ Py.isdecimal c = false) →
  Sudoku.real_clues i0 board = Py.raise Py.ValueError.
Proof.
  revert i0. induction board as [|x rest IH]; intros i0 (c & Hin & Hdig & Hdec).
  { by apply elem_of_nil in Hin. }
  cbn [Sudoku.real_clues]. unfold Py.int.
  destruct (Py.isdecimal x) eqn:Hx.
  - assert (Sudoku.real_clues (i0 + 1) rest = Py.raise Py.ValueError) as ->.
    { apply IH. exists c. apply elem_of_cons in Hin as [->|?]; [congruence|done]. }
    by destruct (Py.isdigit x && negb (Ascii.eqb x "0")).
  - destruct (Py.isdigit x && negb (Ascii.eqb x "0")) eqn:Hcond; [done|].
    apply IH. exists c. apply elem_of_cons in Hin as [->|?]; [|done].
    rewrite Hdig in Hcond. cbn in Hcond.
    apply negb_false_iff, Ascii.eqb_eq in Hcond as ->. done.
Qed.

Lemma board_cases board :
  (∀ c, c ∈ board → Py.isdigit c = true → Py.isdecimal c = true) ∨
  (∃ c, c ∈ board ∧ Py.isdigit c = true ∧ Py.isdecimal c = false).
Proof.
  induction board as [|x rest [IH|(c & ? & ?)]].
  - left. by intros c ?%elem_of_nil.
  - destruct (Py.isdigit x) eqn:Hdig, (Py.isdecimal x) eqn:Hdec.
    2: { right. exists x. split; [by left | done]. }
    all: left; intros c [->|?]%elem_of_cons ?; [congruence | by apply IH].
  - right. exists c. split; [by right | done].
Qed.

(** The cells of the real clues are distinct positions of the board. *)
Lemma real_clues_cells board (i0 : Z) real :
  Sudoku.real_clues i0 board = mret real →
  NoDup (real.*1) ∧
  Forall (λ i, i0 ≤ i < i0 + Z.of_nat (length board)) (real.*1).
Proof.
  revert i0 real. induction board as [|x rest IH]; intros i0 real.
  { intros [= <-]. split; constructor. }
  cbn [Sudoku.real_clues].
  destruct (Sudoku.real_clues (i0 + 1) rest) as [err|tl] eqn:Hrest.
  { destruct (_ && _); [|done]. by destruct (Py.int x). }
  destruct (IH (i0 + 1) tl Hrest) as [Hnd Hall].
  assert (Forall (λ i, i0 ≤ i < i0 + Z.of_nat (length (x :: rest))) (tl.*1))
    as Hall'.
  { eapply Forall_impl; [exact Hall|]. cbn [length]. intros i ?. lia. }
  destruct (_ && _).
  - destruct (Py.int x) as [|v]; [done|]. cbn. intros [= <-].
    cbn [fmap list_fmap fst]. split.
    + constructor; [|done]. intros Hin.
      rewrite Forall_forall in Hall. apply Hall in Hin. lia.
    + constructor; [cbn [length]; lia | done].
  - intros [= <-]. done.
Qed.

(** Every digit of 1..9 is the value of some clue. *)
Lemma make_clues_cover (set_iter : gset Z → list Z) (board : string) clues :
  (∀ s, set_iter s ≡ₚ elements s) →
  Sudoku.make_clues set_iter board = mret clues →
  ∀ v, 1 ≤ v ≤ 9 → ∃ x, (x, v) ∈ clues.
Proof.
  intros Hiter. unfold Sudoku.make_clues.
  destruct (Sudoku.real_clues 0 _) as [|real]; [done|]. cbn.
  intros [= <-] v Hv.
  destruct (decide (v ∈ real.*2)) as [Hin | Hout].
  - apply list_elem_of_fmap in Hin as ([i v'] & -> & Hin).
    exists i. apply elem_of_app. by left.
  - set (missing := (list_to_set (Py.range_step 1 10 1)
                     ∖ list_to_set (real.*2) : gset Z)).
    assert (v ∈ set_iter missing) as (k & Hk)%list_elem_of_lookup_1.
    { rewrite (Hiter missing), elem_of_elements. unfold missing.
      rewrite elem_of_difference, !elem_of_list_to_set, range_1_10, elem_of_seqZ.
      split; [lia | done]. }
    exists (81 + Z.of_nat k). apply elem_of_app. right.
    by apply (elem_of_lookup_imap_2 (λ k v, (81 + Z.of_nat k, v))).
Qed.

Lemma string_length_list (s : string) :
  length (list_ascii_of_string s) = String.length s.
Proof. induction s; cbn; by f_equal. Qed.

Lemma make_clues_NoDup (set_iter : gset Z → list Z) (board : string) clues :
  (String.length board ≤ 81)%nat →
  Sudoku.make_clues set_iter board = mret clues →
  NoDup (clues.*1).
Proof.
  intros Hlen. unfold Sudoku.make_clues.
  destruct (Sudoku.real_clues 0 _) as [|real] eqn:Hreal; [done|]. cbn.
  intros [= <-].
  apply real_clues_cells in Hreal as [Hnd Hall].
  rewrite string_length_list in Hall. rewrite Forall_forall in Hall.
  rewrite fmap_app. apply NoDup_app. split; [done|].
  generalize (set_iter (list_to_set (Py.range_step 1 10 1)
                        ∖ list_to_set (real.*2))).
  intros phantoms. split.
  - intros i Hi%Hall (c & -> & (k & v & -> & _)%elem_of_lookup_imap)%list_elem_of_fmap.
    cbn in Hi. lia.
  - rewrite fmap_imap.
    rewrite (imap_ext _ (λ k _, 81 + Z.of_nat k)) by done.
    rewrite imap_seq_0. apply NoDup_fmap_2; [|apply NoDup_seq].
    intros k1 k2 ?. lia.
Qed.

End ClueExtractorEdges.

(** X7.  [make_clues] raises [ValueError] exactly when the grid holds one
    of the three characters that [isdigit] accepts and [int] rejects (the
    superscripts with code points 178, 179 and 185); on every other grid,
    of any length, it returns a clue list. *)
Theorem make_clues_ValueError (set_iter : gset Z → list Z) (board : string) :
  (Sudoku.make_clues set_iter board = Py.raise Py.ValueError ↔
   ∃ c, c ∈ list_ascii_of_string board ∧
        (Py.ord c = 178 ∨ Py.ord c = 179 ∨ Py.ord c = 185)) ∧
  (Sudoku.make_clues set_iter board = Py.raise Py.ValueError ∨
   ∃ clues, Sudoku.make_clues set_iter board = mret clues).
Proof.
  unfold Sudoku.make_clues.
  destruct (board_cases (list_ascii_of_string board)) as [Hok | Hbad].
  - destruct (real_clues_ok _ 0 Hok) as (real & -> & _). cbn.
    split; [|right; by eexists]. split; [done|].
    intros (c & Hin & Hc%superscript_digit). destruct Hc as [Hdig Hdec].
    rewrite (Hok c Hin Hdig) in Hdec. done.
  - rewrite real_clues_raise by done. split; [|by left].
    split; [|done]. intros _. destruct Hbad as (c & Hin & Hc).
    exists c. split; [done|]. by apply superscript_digit.
Qed.

(** X8.  When [make_clues] returns on a grid of at most 81 characters,
    the clues lie on pairwise distinct cells (the real ones below 81,
    the phantom ones from 81 on), there are at least nine of them, and
    the constraint graph built from them has no self-loop. *)
Theorem make_clues_cells (set_iter : gset Z → list Z) (board : string)
    (clues : list clue) :
  (∀ s, set_iter s ≡ₚ elements s) →
  (String.length board ≤ 81)%nat →
  Sudoku.make_clues set_iter board = mret clues →
  NoDup (clues.*1) ∧ (9 ≤ length clues)%nat ∧
  Nx.no_selfloops (Sudoku.make_sudoku_graph clues).
Proof.
  intros Hiter Hlen Hclues.
  assert (NoDup (clues.*1)) as Hnd by by apply (make_clues_NoDup set_iter board).
  split; [done|]. split.
  - assert (seqZ 1 9 ⊆+ clues.*2) as Hsub.
    { apply NoDup_submseteq; [apply NoDup_seqZ|].
      intros v Hv%elem_of_seqZ.
      destruct (make_clues_cover set_iter board clues Hiter Hclues v) as [x Hx];
        [lia|].
      apply list_elem_of_fmap. by exists (x, v). }
    apply submseteq_length in Hsub. by rewrite length_fmap in Hsub.
  - intros u. unfold Nx.has_edge. apply clue_edges_no_loop.
    + intros x y1 y2 H1 H2.
      assert ((x, y1) = (x, y2)) as [= ->]; [|done].
      by apply (NoDup_fmap_eq fst clues).
    + apply grid_edges_no_loop, adjacent9_irrefl.
Qed.

Lemma make_clues_cells_witness :
  ∃ clues, Sudoku.make_clues elements "53..7...." = mret clues ∧
           NoDup (clues.*1) ∧ (9 ≤ length clues)%nat ∧
           Nx.no_selfloops (Sudoku.make_sudoku_graph clues).
Proof.
  eexists. split; [vm_compute; reflexivity|].
  apply (make_clues_cells elements "53..7....").
  - intros s. reflexivity.
  - cbn. lia.
  - vm_compute. reflexivity.
Defined.

(** ** The presenter and the two decoders *)

Section Presenter.

Implicit Types (s : list Z).

(** Consecutive rows of width [w] put back together. *)
Lemma rows_concat (w n : nat) s :
  concat ((λ i : nat, take w (drop (i * w) s)) <$> seq 0 n) = take (n * w) s.
Proof.
  induction n as [|n IH]; [done|].
  rewrite seq_S, fmap_app, concat_app, IH. cbn [fmap list_fmap concat].
  rewrite app_nil_r, Nat.add_0_l, take_take_drop. f_equal. lia.
Qed.

Lemma rows_length (w n : nat) s :
  (n * w ≤ length s)%nat →
  Forall (λ r, length r = w) ((λ i : nat, take w (drop (i * w) s)) <$> seq 0 n).
Proof.
  intros Hlen. apply Forall_fmap, Forall_forall. intros i Hi%elem_of_seq. cbn.
  rewrite length_take, length_drop. nia.
Qed.

Lemma disp9_rows s :
  Sudoku.disp s = (λ i : nat, take 9 (drop (i * 9) s)) <$> seq 0 9.
Proof. reflexivity. Qed.

Lemma disp4_rows s :
  Sudoku4.disp s = (λ i : nat, take 4 (drop (i * 4) s)) <$> seq 0 4.
Proof. reflexivity. Qed.

End Presenter.

(** X9.  [disp] prints nine rows (four in the 4x4 variant) which, put end
    to end, are the first 81 (16) entries of the solution, in order;
    further entries are not printed; when the solution has at least 81
    (16) entries every row has 9 (4) of them. *)
Theorem disp_rows (s : list Z) :
  (length (Sudoku.disp s) = 9%nat ∧ concat (Sudoku.disp s) = take 81 s ∧
   ((81 ≤ length s)%nat → Forall (λ r, length r = 9%nat) (Sudoku.disp s))) ∧
  (length (Sudoku4.disp s) = 4%nat ∧ concat (Sudoku4.disp s) = take 16 s ∧
   ((16 ≤ length s)%nat → Forall (λ r, length r = 4%nat) (Sudoku4.disp s))).
Proof.
  rewrite disp9_rows, disp4_rows, !rows_concat, !length_fmap, !length_seq.
  repeat split; try done; intros Hlen; apply rows_length; cbn; lia.
Qed.

Lemma disp_rows_witness :
  Forall (λ r, length r = 9%nat) (Sudoku.disp (replicate 81 7)) ∧
  Forall (λ r, length r = 4%nat) (Sudoku4.disp (replicate 16 7)).
Proof.
  split.
  - apply (proj1 (disp_rows (replicate 81 7))). cbn. lia.
  - apply (proj2 (disp_rows (replicate 16 7))). cbn. lia.
Defined.

Section DecoderEdges.

Implicit Types (coloring : gmap Z Py.label) (clues : list clue).
Implicit Types (tbl : gmap Py.label Z).

(** With no coloured clue cell the table stays empty. *)
Lemma decode_lookup_empty coloring clues :
  (∀ x y, (x, y) ∈ clues → coloring !! x = None) →
  Sudoku.decode_lookup coloring clues = ∅.
Proof.
  intros Hnone. apply map_eq. intros col. rewrite lookup_empty.
  apply decode_lookup_unknown. intros [x y] Hin. cbn.
  by rewrite (Hnone x y Hin).
Qed.

(** Each cell of the 4x4 grid is resolvable, or one is not. *)
Lemma solution4_cases coloring tbl (l : list Z) :
  (∀ i, i ∈ l → ∃ col, coloring !! i = Some col ∧ is_Some (tbl !! col)) ∨
  (∃ i, i ∈ l ∧ (coloring !! i = None ∨
                 ∃ col, coloring !! i = Some col ∧ tbl !! col = None)).
Proof.
  induction l as [|i l [IH|(j & ? & ?)]].
  - left. by intros i ?%elem_of_nil.
  - destruct (coloring !! i) as [col|] eqn:Hcol.
    + destruct (tbl !! col) as [v|] eqn:Hv.
      * left. intros j [->|?]%elem_of_cons; [|by apply IH].
        exists col. split; [done | by exists v].
      * right. exists i. split; [by left|]. right. by exists col.
    + right. exists i. split; [by left | by left].
  - right. exists j. split; [by right | done].
Qed.

End DecoderEdges.

(** X10.  When no clue cell has a colour (an empty colouring, an empty clue
    list, a colouring that misses every clue) the 9x9 decoder falls back
    to 9 on all 81 cells. *)
Theorem decode_no_coloured_clue (coloring : gmap Z Py.label) (clues : list clue) :
  (∀ x y, (x, y) ∈ clues → coloring !! x = None) →
  Sudoku.decode coloring clues = replicate 81 9.
Proof.
  intros Hnone. unfold Sudoku.decode. rewrite decode_lookup_empty by done.
  rewrite (list_fmap_ext _ (λ _, 9) (Py.range 81)); [reflexivity|].
  intros k i _. unfold Py.dict_get. by rewrite lookup_empty.
Qed.

Lemma decode_no_coloured_clue_witness :
  Sudoku.decode {[5 := Py.LInt 0]} [(0, 4); (2, 1)] = replicate 81 9.
Proof.
  apply (decode_no_coloured_clue {[5 := Py.LInt 0]} [(0, 4); (2, 1)]).
  intros x y Hxy.
  repeat (apply elem_of_cons in Hxy as [Hxy|Hxy];
          [injection Hxy as -> ->; reflexivity|]).
  by apply elem_of_nil in Hxy.
Defined.

(** X11.  The two decoders agree whenever the strict one returns: what the
    4x4 decoder prints are the first 16 digits given by the 9x9 decoder
    for the same colouring and clues (so the last-clue-wins rule holds in
    the 4x4 decoder too, and no fallback 9 is involved). *)
Theorem decoders_agree (coloring : gmap Z Py.label) (clues : list clue)
    (rows : list (list Z)) :
  Sudoku4.decode coloring clues = mret rows →
  rows = Sudoku4.disp (take 16 (Sudoku.decode coloring clues)).
Proof.
  unfold Sudoku4.decode.
  destruct (decode4_lookup_cases coloring clues) as [Hall | Hmiss].
  2: { by rewrite decode4_lookup_raise. }
  rewrite decode4_lookup_ok by done. cbn.
  destruct (solution4_cases coloring (Sudoku.decode_lookup coloring clues)
              (Py.range 16)) as [Hok | (i & Hi%elem_of_seqZ & Hbad)].
  2: { rewrite solution4_raise; [done|]. exists i. split; [lia | done]. }
  rewrite solution4_ok by (intros i Hi; apply Hok, elem_of_seqZ; lia).
  remember ((λ i, default 0 (coloring !! i ≫= λ col,
                     Sudoku.decode_lookup coloring clues !! col))
              <$> Py.range 16) as sol eqn:Hsol.
  cbn. intros [= <-]. f_equal. rewrite Hsol. unfold Sudoku.decode.
  rewrite <- fmap_take.
  change (take 16 (Py.range 81)) with (Py.range 16).
  apply list_fmap_ext. intros k i Hi%list_elem_of_lookup_2.
  destruct (Hok i Hi) as (col & Hcol & v & Hv).
  unfold Py.dict_get. rewrite Hcol. cbn. by rewrite Hv.
Qed.

Lemma decoders_agree_witness :
  let clues : list clue := [(0, 4); (2, 1); (7, 2); (8, 3); (13, 4)] in
  let coloring : gmap Z Py.label :=
    list_to_map (zip (seqZ 0 16)
      (Py.LInt <$> [4; 2; 1; 3;  1; 3; 4; 2;  3; 1; 2; 4;  2; 4; 3; 1])) in
  [[4; 2; 1; 3]; [1; 3; 4; 2]; [3; 1; 2; 4]; [2; 4; 3; 1]]
  = Sudoku4.disp (take 16 (Sudoku.decode coloring clues)).
Proof.
  intros clues coloring.
  apply (decoders_agree coloring clues). vm_compute. reflexivity.
Defined.

(** ** Decoding a proper colouring *)

Section ProperColouring.

(** A colouring, a clue list, the colours the oracle may use and the
    values the clues are known to cover. *)
Variable coloring : gmap Z Py.label.
Variable clues : list clue.
Variable palette : list Py.label.
Variable vals : list Z.

Hypothesis vals_NoDup : NoDup vals.
Hypothesis vals_covered : ∀ v, v ∈ vals → ∃ x, (x, v) ∈ clues.
Hypothesis palette_small : (length palette ≤ length vals)%nat.
Hypothesis clues_coloured :
  ∀ x v, (x, v) ∈ clues → ∃ c, coloring !! x = Some c ∧ c ∈ palette.
Hypothesis clues_differ :
  ∀ x1 v1 x2 v2, (x1, v1) ∈ clues → (x2, v2) ∈ clues → v1 ≠ v2 →
                 coloring !! x1 ≠ coloring !! x2.

(** One clue for each covered value. *)
Lemma choose_representatives :
  ∃ reps : list clue, reps.*2 = vals ∧ ∀ r, r ∈ reps → r ∈ clues.
Proof using vals_covered.
  clear vals_NoDup palette_small. induction vals as [|v vs IH].
  { exists []. split; [done|]. by intros r ?%elem_of_nil. }
  destruct IH as (reps & Hvals & Hin).
  { intros w ?. apply vals_covered. by right. }
  destruct (vals_covered v) as [x Hx]; [by left|].
  exists ((x, v) :: reps). split; [cbn; by f_equal|].
  intros r [->|?]%elem_of_cons; [done | by apply Hin].
Qed.

(** Pigeonhole: the representatives use every colour of the palette, so
    every colour of the palette stands for exactly one value. *)
Lemma palette_representatives :
  ∃ reps : list clue,
    NoDup (reps.*2) ∧ (∀ r, r ∈ reps → r ∈ clues) ∧
    ∀ c, c ∈ palette → ∃ x v, (x, v) ∈ reps ∧ coloring !! x = Some c.
Proof using All.
  destruct choose_representatives as (reps & Hvals & Hin).
  exists reps. split; [by rewrite Hvals|]. split; [done|].
  set (cols := (λ r : clue, coloring !! r.1) <$> reps).
  assert (NoDup cols) as Hnd.
  { apply NoDup_fmap_2_strong; [|apply (NoDup_fmap_1 snd); by rewrite Hvals].
    intros [x1 v1] [x2 v2] H1 H2 Hcol. cbn in Hcol.
    destruct (decide (v1 = v2)) as [->|Hne].
    - apply (NoDup_fmap_eq snd reps); [by rewrite Hvals | done..].
    - by destruct (clues_differ x1 v1 x2 v2); [apply Hin.. | |]. }
  assert (cols ⊆+ Some <$> palette) as Hsub.
  { apply NoDup_submseteq; [done|].
    intros oc ([x v] & -> & Hr)%list_elem_of_fmap. cbn.
    destruct (clues_coloured x v) as (c & -> & ?); [by apply Hin|].
    by apply list_elem_of_fmap_2. }
  apply submseteq_length_Permutation in Hsub.
  2: { unfold cols. rewrite !length_fmap. rewrite <- Hvals in palette_small.
       by rewrite length_fmap in palette_small. }
  intros c Hc.
  assert (Some c ∈ cols) as ([x v] & Hcol & Hr)%list_elem_of_fmap.
  { rewrite Hsub. by apply list_elem_of_fmap_2. }
  exists x, v. by split.
Qed.

(** Two clue cells share a colour exactly when they share a value. *)
Lemma colour_value_bijection x1 v1 x2 v2 :
  (x1, v1) ∈ clues → (x2, v2) ∈ clues →
  coloring !! x1 = coloring !! x2 ↔ v1 = v2.
Proof using All.
  intros H1 H2. split.
  - intros Hcol. destruct (decide (v1 = v2)) as [|Hne]; [done|].
    by destruct (clues_differ x1 v1 x2 v2).
  - intros <-.
    destruct palette_representatives as (reps & Hnd & Hin & Hpal).
    assert (∀ x c, (x, v1) ∈ clues → coloring !! x = Some c → c ∈ palette →
              ∃ r, (r, v1) ∈ reps ∧ coloring !! r = Some c) as Hrep.
    { intros x c Hx Hc Hcp. destruct (Hpal c Hcp) as (r & w & Hr & Hrc).
      destruct (decide (w = v1)) as [->|Hne]; [by exists r|].
      destruct (clues_differ r w x v1); [by apply Hin | done | done |].
      by rewrite Hrc, Hc. }
    destruct (clues_coloured x1 v1 H1) as (c1 & Hc1 & Hp1).
    destruct (clues_coloured x2 v1 H2) as (c2 & Hc2 & Hp2).
    destruct (Hrep x1 c1 H1 Hc1 Hp1) as (r1 & Hr1 & Hrc1).
    destruct (Hrep x2 c2 H2 Hc2 Hp2) as (r2 & Hr2 & Hrc2).
    assert ((r1, v1) = (r2, v1)) as [= ->]
      by by apply (NoDup_fmap_eq snd reps).
    by rewrite Hc1, Hc2, <- Hrc1, <- Hrc2.
Qed.

(** The table knows every colour of the palette, and gives it the value
    of a clue of that colour. *)
Lemma palette_decoded c :
  c ∈ palette →
  ∃ w x, Sudoku.decode_lookup coloring clues !! c = Some w ∧
         (x, w) ∈ clues ∧ coloring !! x = Some c.
Proof using All.
  intros Hc. destruct palette_representatives as (reps & _ & Hin & Hpal).
  destruct (Hpal c Hc) as (r & v & Hr%Hin & Hrc).
  destruct (decode_lookup_known coloring clues r v c Hr Hrc) as [w Hw].
  destruct (decode_lookup_origin coloring clues c w Hw) as (x & ? & ?).
  by exists w, x.
Qed.

(** A clue cell is decoded to the value of its clue. *)
Lemma clue_decoded x v :
  (x, v) ∈ clues →
  ∃ c, coloring !! x = Some c ∧
       Sudoku.decode_lookup coloring clues !! c = Some v.
Proof using All.
  intros Hx. destruct (clues_coloured x v Hx) as (c & Hc & Hp).
  exists c. split; [done|].
  destruct (palette_decoded c Hp) as (w & x' & -> & Hx' & Hc').
  f_equal. apply (colour_value_bijection x' w x v); [done..|].
  by rewrite Hc, Hc'.
Qed.

(** Cells of different colours of the palette are decoded to different
    values. *)
Lemma colours_decoded_apart c1 c2 w :
  c1 ∈ palette → c2 ∈ palette → c1 ≠ c2 →
  Sudoku.decode_lookup coloring clues !! c1 = Some w →
  Sudoku.decode_lookup coloring clues !! c2 ≠ Some w.
Proof using All.
  intros H1 H2 Hne Hw1 Hw2.
  apply decode_lookup_origin in Hw1 as (x1 & Hx1 & Hc1).
  apply decode_lookup_origin in Hw2 as (x2 & Hx2 & Hc2).
  apply Hne. assert (coloring !! x1 = coloring !! x2) as Heq
    by by apply (colour_value_bijection x1 w x2 w).
  rewrite Hc1, Hc2 in Heq. by injection Heq.
Qed.

End ProperColouring.

Section ProperColouring9.

Implicit Types (coloring : gmap Z Py.label) (clues : list clue).
Implicit Types (palette : list Py.label).

(** The real cells decoded through the table. *)
Lemma decode_lookup_total coloring clues i :
  0 ≤ i < 81 →
  Sudoku.decode coloring clues !!! Z.to_nat i
  = Py.dict_get (Sudoku.decode_lookup coloring clues)
                (Py.dict_get coloring i Sudoku.sentinel) 9.
Proof.
  intros Hi. pose proof (decode_getitem coloring clues i Hi) as Hget.
  rewrite getitem_in_range in Hget by (rewrite decode_length; lia).
  by injection Hget.
Qed.

Lemma List_filter_none {A} (p : A → bool) (l : list A) :
  (∀ x, x ∈ l → p x = false) → List.filter p l = [].
Proof.
  induction l as [|x l IH]; intros Hl; [done|]. cbn.
  rewrite (Hl x), IH; [done | | by left]. intros y ?. apply Hl. by right.
Qed.

(** What a proper colouring of a graph with clue edges says about the
    clues, when the clues carry at least the values 1 and 2. *)
Lemma proper_on_clues coloring clues palette (G0 : Nx.Graph) :
  (∃ x1 x2, (x1, 1) ∈ clues ∧ (x2, 2) ∈ clues) →
  (∀ u, u ∈ Nx.nodes (Sudoku.add_clue_edges clues G0) →
        ∃ c, coloring !! u = Some c ∧ c ∈ palette) →
  (∀ u v, Nx.has_edge (Sudoku.add_clue_edges clues G0) u v →
          coloring !! u ≠ coloring !! v) →
  (∀ x v, (x, v) ∈ clues → ∃ c, coloring !! x = Some c ∧ c ∈ palette) ∧
  (∀ x1 v1 x2 v2, (x1, v1) ∈ clues → (x2, v2) ∈ clues → v1 ≠ v2 →
                  coloring !! x1 ≠ coloring !! x2).
Proof.
  intros (x1 & x2 & Hx1 & Hx2) Hnodes Hproper. split.
  - intros x v Hx. apply Hnodes, nodes_add_clue_edges. right.
    destruct (decide (v = 1)) as [->|Hne].
    + by exists 1, x2, 2.
    + by exists v, x1, 1.
  - intros y1 v1 y2 v2 H1 H2 Hne. apply Hproper. unfold Nx.has_edge.
    apply clue_edges. right. by exists v1, v2.
Qed.

(** Nodes and edges of the 9x9 graph, by cases. *)
Lemma graph9_node_cases clues u :
  u ∈ Nx.nodes (Sudoku.make_sudoku_graph clues) →
  0 ≤ u < 81 ∨ ∃ y, (u, y) ∈ clues.
Proof.
  unfold Sudoku.make_sudoku_graph. cbv zeta.
  intros [Hu | (y & _ & _ & Hin & _)]%nodes_add_clue_edges.
  - left. apply grid_nodes in Hu;
      [exact Hu | apply adjacent9_sym | apply adjacent9_neighbour
      | apply adjacent9_irrefl].
  - right. by exists y.
Qed.

Lemma graph9_edge_cases clues u v :
  Nx.has_edge (Sudoku.make_sudoku_graph clues) u v →
  (0 ≤ u < 81 ∧ 0 ≤ v < 81 ∧ Sudoku.adjacent u v = true) ∨
  (∃ y1 y2, (u, y1) ∈ clues ∧ (v, y2) ∈ clues ∧ y1 ≠ y2).
Proof.
  unfold Nx.has_edge, Sudoku.make_sudoku_graph. cbv zeta.
  intros [Hedge | Hclue]%clue_edges; [left | by right].
  apply grid_edges in Hedge;
    [exact Hedge | apply adjacent9_sym | apply adjacent9_irrefl].
Qed.

End ProperColouring9.

(** A proper colouring with at most nine colours, of the graph of clues
    that carry every digit of 1..9, is decoded to a grid of cost 0 with
    the clues in place. *)
Lemma decode9_proper
    (coloring : gmap Z Py.label) (clues : list clue) (palette : list Py.label) :
  (∀ v, 1 ≤ v ≤ 9 → ∃ x, (x, v) ∈ clues) →
  (length palette ≤ 9)%nat →
  (∀ u, u ∈ Nx.nodes (Sudoku.make_sudoku_graph clues) →
        ∃ c, coloring !! u = Some c ∧ c ∈ palette) →
  (∀ u v, Nx.has_edge (Sudoku.make_sudoku_graph clues) u v →
          coloring !! u ≠ coloring !! v) →
  Sudoku.cost (Sudoku.decode coloring clues) = mret 0 ∧
  (∀ i v, (i, v) ∈ clues → 0 ≤ i < 81 →
          Py.getitem (Sudoku.decode coloring clues) i = mret v) ∧
  (∀ i, 0 ≤ i < 81 →
        ∃ v x, Py.getitem (Sudoku.decode coloring clues) i = mret v ∧
               (x, v) ∈ clues ∧ coloring !! x = coloring !! i).
Proof.
  intros Hcover Hpal Hnodes Hproper.
  unfold Sudoku.make_sudoku_graph in Hnodes, Hproper. cbv zeta in Hnodes, Hproper.
  assert (∃ x1 x2, (x1, 1) ∈ clues ∧ (x2, 2) ∈ clues) as Htwo.
  { destruct (Hcover 1) as [x1 ?]; [lia|]. destruct (Hcover 2) as [x2 ?]; [lia|].
    by exists x1, x2. }
  destruct (proper_on_clues coloring clues palette _ Htwo Hnodes Hproper)
    as [Hcol Hdiff].
  assert (NoDup (seqZ 1 9)) as Hnd by apply NoDup_seqZ.
  assert (∀ v, v ∈ seqZ 1 9 → ∃ x, (x, v) ∈ clues) as Hcover'.
  { intros v Hv%elem_of_seqZ. apply Hcover. lia. }
  assert (length palette ≤ length (seqZ 1 9))%nat as Hpal'
    by (rewrite length_seqZ; lia).
  assert (∀ i, 0 ≤ i < 81 →
            ∃ c w x, coloring !! i = Some c ∧ c ∈ palette ∧
                     Sudoku.decode_lookup coloring clues !! c = Some w ∧
                     (x, w) ∈ clues ∧ coloring !! x = Some c) as Hcell.
  { intros i Hi. destruct (Hnodes i) as (c & Hc & Hp).
    { apply nodes_add_clue_edges. left.
      apply grid_nodes;
        [apply adjacent9_sym | apply adjacent9_neighbour
        | apply adjacent9_irrefl | done]. }
    destruct (palette_decoded coloring clues palette (seqZ 1 9)
                Hnd Hcover' Hpal' Hcol Hdiff c Hp) as (w & x & ? & ? & ?).
    by exists c, w, x. }
  split; [|split].
  - rewrite cost_filter by apply decode_length.
    rewrite List_filter_none; [done|].
    intros [i j] (Hij & Hj & Hadj)%elem_of_adjacent_pairs. cbn [fst snd].
    rewrite !decode_lookup_total by lia.
    destruct (Hcell i) as (ci & wi & _ & Hci & Hpi & Hwi & _); [lia|].
    destruct (Hcell j) as (cj & wj & _ & Hcj & Hpj & Hwj & _); [lia|].
    unfold Py.dict_get. rewrite Hci, Hcj. cbn. rewrite Hwi, Hwj. cbn.
    apply Z.eqb_neq. intros <-.
    apply (colours_decoded_apart coloring clues palette (seqZ 1 9)
             Hnd Hcover' Hpal' Hcol Hdiff ci cj wi); [done..| |done|done].
    intros <-. apply (Hproper i j); [|by rewrite Hci, Hcj].
    unfold Nx.has_edge. apply clue_edges. left.
    apply grid_edges; [apply adjacent9_sym | apply adjacent9_irrefl|].
    split; [lia|]. split; [lia | done].
  - intros i v Hclue Hi. rewrite decode_getitem by done.
    destruct (clue_decoded coloring clues palette (seqZ 1 9)
                Hnd Hcover' Hpal' Hcol Hdiff i v Hclue) as (c & Hc & Hv).
    unfold Py.dict_get. rewrite Hc. cbn. by rewrite Hv.
  - intros i Hi. destruct (Hcell i Hi) as (c & w & x & Hc & _ & Hw & Hx & Hxc).
    exists w, x. rewrite decode_getitem by done.
    unfold Py.dict_get. rewrite Hc. cbn. rewrite Hw. cbn. by rewrite Hxc.
Qed.

(** X12.  The reduction is sound.  Take a clue list that carries every
    digit of 1..9 (as [make_clues] provides) and a proper colouring of its
    constraint graph with at most nine colours: every node has a colour
    of the palette and the two ends of an edge have different colours.
    Then the decoded grid has cost 0, every clue on the grid is decoded
    to its own digit, and every cell is decoded to the digit of a clue of
    the same colour, never through the fallback. *)
Theorem proper_colouring_decoded
    (coloring : gmap Z Py.label) (clues : list clue) (palette : list Py.label) :
  (∀ v, 1 ≤ v ≤ 9 → ∃ x, (x, v) ∈ clues) →
  (length palette ≤ 9)%nat →
  (∀ u, u ∈ Nx.nodes (Sudoku.make_sudoku_graph clues) →
        ∃ c, coloring !! u = Some c ∧ c ∈ palette) →
  (∀ u v, Nx.has_edge (Sudoku.make_sudoku_graph clues) u v →
          coloring !! u ≠ coloring !! v) →
  Sudoku.cost (Sudoku.decode coloring clues) = mret 0 ∧
  (∀ i v, (i, v) ∈ clues → 0 ≤ i < 81 →
          Py.getitem (Sudoku.decode coloring clues) i = mret v) ∧
  (∀ i, 0 ≤ i < 81 →
        ∃ v x, Py.getitem (Sudoku.decode coloring clues) i = mret v ∧
               (x, v) ∈ clues ∧ coloring !! x = coloring !! i).
Proof.
  intros Hcover Hpal Hnodes Hproper.
  exact (decode9_proper coloring clues palette Hcover Hpal Hnodes Hproper).
Qed.

(** A solved grid taken as a colouring (colour [n] for the digit [n]),
    with the clues of its first row. *)
Section SolvedGrid.

Local Abbreviation solved :=
  [5;3;4;6;7;8;9;1;2;  6;7;2;1;9;5;3;4;8;  1;9;8;3;4;2;5;6;7;
   8;5;9;7;6;1;4;2;3;  4;2;6;8;5;3;7;9;1;  7;1;3;9;2;4;8;5;6;
   9;6;1;5;3;7;2;8;4;  2;8;7;4;1;9;6;3;5;  3;4;5;2;8;6;1;7;9].
Local Abbreviation solved_colouring :=
  (list_to_map (zip (seqZ 0 81) (Py.LInt <$> solved)) : gmap Z Py.label).
Local Abbreviation row_clues :=
  ([(0, 5); (1, 3); (2, 4); (3, 6); (4, 7); (5, 8); (6, 9); (7, 1); (8, 2)]
   : list clue).

Lemma solved_cells u :
  0 ≤ u < 81 → ∃ n, solved_colouring !! u = Some (Py.LInt n) ∧ 1 ≤ n ≤ 9.
Proof.
  intros Hu.
  assert (forallb (λ u, match solved_colouring !! u with
                        | Some (Py.LInt n) => (1 <=? n) && (n <=? 9)
                        | _ => false
                        end) (seqZ 0 81) = true) as Hall
    by (vm_compute; reflexivity).
  rewrite forallb_forall in Hall.
  assert (In u (seqZ 0 81)) as Hin
    by (apply list_elem_of_In, elem_of_seqZ; lia).
  apply Hall in Hin. revert Hin.
  generalize (solved_colouring !! u). intros [[n|]|] Hin; try discriminate.
  exists n. split; [reflexivity | lia].
Qed.

Lemma solved_proper u v :
  0 ≤ u < 81 → 0 ≤ v < 81 → Sudoku.adjacent u v = true →
  solved_colouring !! u ≠ solved_colouring !! v.
Proof.
  intros Hu Hv Hadj.
  assert (forallb (λ u, forallb (λ v,
            implb (Sudoku.adjacent u v)
                  match solved_colouring !! u, solved_colouring !! v with
                  | Some (Py.LInt n), Some (Py.LInt m) => negb (n =? m)
                  | _, _ => false
                  end) (seqZ 0 81)) (seqZ 0 81) = true) as Hall
    by (vm_compute; reflexivity).
  rewrite forallb_forall in Hall.
  assert (In u (seqZ 0 81)) as Hin
    by (apply list_elem_of_In, elem_of_seqZ; lia).
  apply Hall in Hin. rewrite forallb_forall in Hin.
  assert (In v (seqZ 0 81)) as Hin'
    by (apply list_elem_of_In, elem_of_seqZ; lia).
  apply Hin in Hin'. rewrite Hadj in Hin'. revert Hin'.
  generalize (solved_colouring !! u) (solved_colouring !! v).
  intros [[n|]|] [[m|]|]; cbn [implb]; try discriminate.
  intros Hnm%negb_true_iff%Z.eqb_neq. congruence.
Qed.

Lemma row_clues_cells x v :
  (x, v) ∈ row_clues → 0 ≤ x < 9 ∧ solved !! Z.to_nat x = Some v.
Proof.
  intros Hxv.
  repeat (apply elem_of_cons in Hxv as [Hxv|Hxv];
          [injection Hxv as -> ->; split; [lia | reflexivity]|]).
  by apply elem_of_nil in Hxv.
Qed.

Lemma row_clues_cover v : 1 ≤ v ≤ 9 → ∃ x, (x, v) ∈ row_clues.
Proof.
  intros Hv. assert (Hin : v ∈ seqZ 1 9) by (apply elem_of_seqZ; lia).
  clear Hv. cbv in Hin.
  repeat (apply elem_of_cons in Hin as [-> | Hin];
          [eexists; by repeat constructor|]).
  by apply elem_of_nil in Hin.
Qed.

Lemma solved_nodes u :
  u ∈ Nx.nodes (Sudoku.make_sudoku_graph row_clues) →
  ∃ c, solved_colouring !! u = Some c ∧ c ∈ Py.LInt <$> seqZ 1 9.
Proof.
  intros Hu.
  assert (0 ≤ u < 81) as Hrange.
  { apply graph9_node_cases in Hu as [Hu | (y & Hin)]; [exact Hu|].
    apply row_clues_cells in Hin. lia. }
  clear Hu. destruct (solved_cells u Hrange) as (n & Hn & Hn9).
  exists (Py.LInt n).
  split; [exact Hn|]. apply list_elem_of_fmap_2, elem_of_seqZ. lia.
Qed.

Lemma solved_edges u v :
  Nx.has_edge (Sudoku.make_sudoku_graph row_clues) u v →
  solved_colouring !! u ≠ solved_colouring !! v.
Proof.
  intros [(Hu & Hv & Hadj) | (y1 & y2 & H1 & H2 & Hne)]%graph9_edge_cases.
  - exact (solved_proper u v Hu Hv Hadj).
  - apply row_clues_cells in H1 as [Hu Hy1].
    apply row_clues_cells in H2 as [Hv Hy2].
    apply solved_proper; [lia | lia |].
    assert (u ≠ v) as Huv by (intros ->; congruence).
    unfold Sudoku.adjacent.
    destruct (Z.eqb_spec u v) as [|_]; [contradiction|].
    replace (u / 9) with 0 by (symmetry; apply Z.div_small; lia).
    replace (v / 9) with 0 by (symmetry; apply Z.div_small; lia).
    reflexivity.
Qed.

Lemma palette9_length : (length (Py.LInt <$> seqZ 1 9) ≤ 9)%nat.
Proof. rewrite length_fmap, length_seqZ. lia. Qed.

Lemma proper_colouring_decoded_witness :
  Sudoku.cost (Sudoku.decode solved_colouring row_clues) = mret 0.
Proof.
  exact (proj1 (proper_colouring_decoded solved_colouring row_clues
                  (Py.LInt <$> seqZ 1 9)
                  row_clues_cover palette9_length solved_nodes solved_edges)).
Defined.

End SolvedGrid.

(** ** The whole pipeline *)

Section Pipeline.

Variable set_iter : gset Z → list Z.
Variable greedy_color : Nx.Graph → string → gmap Z Py.label.
Variable min_vertex_coloring :
  Nx.Graph → option Z → option Z → Z → Z → gmap Z Py.label.

(** The colouring [solve] asks for. *)
Local Abbreviation oracle_colouring clues use_dwave max_iter convergence :=
  (if use_dwave : bool
   then min_vertex_coloring (Sudoku.make_sudoku_graph clues)
          (Some 9) (Some 9) max_iter convergence
   else greedy_color (Sudoku.make_sudoku_graph clues)
          "saturation_largest_first").

Lemma result_bind_ret {A B} (a : A) (k : A → Py.result B) :
  (mret a ≫= k) = k a.
Proof. reflexivity. Qed.

(** Once the clues are extracted, the rest of [solve] cannot raise. *)
Lemma solve_after_clues grid use_dwave max_iter convergence clues :
  Sudoku.make_clues set_iter grid = mret clues →
  ∃ n,
    Sudoku.cost (Sudoku.decode
      (oracle_colouring clues use_dwave max_iter convergence) clues) = mret n ∧
    0 ≤ n ≤ 810 ∧
    Sudoku.solve set_iter greedy_color min_vertex_coloring
      grid use_dwave max_iter convergence
    = mret (Sudoku.disp (Sudoku.decode
              (oracle_colouring clues use_dwave max_iter convergence) clues),
            n).
Proof.
  intros Hclues. unfold Sudoku.solve. rewrite Hclues, result_bind_ret.
  cbv zeta.
  generalize (oracle_colouring clues use_dwave max_iter convergence).
  intros coloring.
  pose proof (cost_filter (Sudoku.decode coloring clues)
                (decode_length coloring clues)) as Hcost.
  pose proof (List_filter_length_le
    (λ e : Z * Z, Sudoku.decode coloring clues !!! Z.to_nat e.1
                  =? Sudoku.decode coloring clues !!! Z.to_nat e.2)
    (List.filter (λ e : Z * Z, Sudoku.adjacent e.1 e.2)
                 (Py.combinations2 (Py.range 81)))) as Hle.
  rewrite adjacent_pairs_length in Hle.
  revert Hcost Hle. generalize (length (List.filter
    (λ e : Z * Z, Sudoku.decode coloring clues !!! Z.to_nat e.1
                  =? Sudoku.decode coloring clues !!! Z.to_nat e.2)
    (List.filter (λ e : Z * Z, Sudoku.adjacent e.1 e.2)
                 (Py.combinations2 (Py.range 81))))).
  intros k Hcost Hle. exists (Z.of_nat k).
  split; [exact Hcost|]. split; [lia|].
  rewrite Hcost, result_bind_ret. reflexivity.
Qed.

(** The real clues of the grid are among the clues. *)
Lemma make_clues_real grid clues i c d :
  Sudoku.make_clues set_iter grid = mret clues →
  0 ≤ i → list_ascii_of_string grid !! Z.to_nat i = Some c →
  Py.isdigit c = true → c ≠ "0"%char → Py.int c = mret d →
  (i, d) ∈ clues.
Proof.
  intros Hclues Hi Hc Hdig Hnz Hint. unfold Sudoku.make_clues in Hclues.
  destruct (board_cases (list_ascii_of_string grid)) as [Hok | Hbad].
  2: { by rewrite real_clues_raise in Hclues. }
  destruct (real_clues_ok _ 0 Hok) as (real & Hreal & Hmem).
  rewrite Hreal in Hclues. cbn in Hclues. injection Hclues as <-.
  apply elem_of_app. left. apply Hmem. exists c.
  rewrite Z.sub_0_r. by repeat split.
Qed.

(** The clues carry digits of 1..9 only. *)
Lemma make_clues_digits grid clues :
  (∀ s, set_iter s ≡ₚ elements s) →
  Sudoku.make_clues set_iter grid = mret clues →
  ∀ x v, (x, v) ∈ clues → 1 ≤ v ≤ 9.
Proof.
  intros Hiter Hclues x v Hin. unfold Sudoku.make_clues in Hclues.
  destruct (board_cases (list_ascii_of_string grid)) as [Hok | Hbad].
  2: { by rewrite real_clues_raise in Hclues. }
  destruct (real_clues_ok _ 0 Hok) as (real & Hreal & Hmem).
  rewrite Hreal, result_bind_ret in Hclues. cbv zeta in Hclues.
  injection Hclues as <-.
  apply elem_of_app in Hin as [Hin | Hin].
  - apply Hmem in Hin as (c & _ & _ & _ & Hnz & Hint).
    by apply (int_nonzero_digit c).
  - apply elem_of_lookup_imap in Hin as (k & w & [= _ ->] & Hw).
    apply list_elem_of_lookup_2 in Hw.
    rewrite (Hiter _), elem_of_elements, elem_of_difference in Hw.
    destruct Hw as [Hw _].
    rewrite !elem_of_union, !elem_of_singleton, elem_of_empty in Hw. lia.
Qed.

(** A decoded entry is the fallback 9 or the value of a clue. *)
Lemma decode_entries (coloring : gmap Z Py.label) (clues : list clue) v :
  v ∈ Sudoku.decode coloring clues → v = 9 ∨ ∃ x, (x, v) ∈ clues.
Proof.
  unfold Sudoku.decode. intros (i & -> & _)%list_elem_of_fmap.
  unfold Py.dict_get.
  generalize (default Sudoku.sentinel (coloring !! i)); intros col.
  destruct (Sudoku.decode_lookup coloring clues !! col) as [w|] eqn:Hw; cbn.
  - right. apply decode_lookup_origin in Hw as (x & ? & _). by exists x.
  - by left.
Qed.

(** The rows hold entries of the solution only. *)
Lemma rows_entries (w n : nat) (s r : list Z) d :
  r ∈ (λ i : nat, take w (drop (i * w) s)) <$> seq 0 n → d ∈ r → d ∈ s.
Proof.
  intros (i & -> & _)%list_elem_of_fmap Hd.
  by apply subseteq_take, subseteq_drop in Hd.
Qed.

End Pipeline.

(** X13.  Whatever the oracles return, [solve] raises nothing but the
    [ValueError] of [make_clues], and this exactly on a grid that holds
    one of the characters with code points 178, 179, 185; otherwise it
    prints nine rows of nine entries and a cost between 0 and 810, which
    is the cost of the printed grid.  When the iteration over sets
    enumerates their elements, every printed entry is a digit of 1..9. *)
Theorem solve_outcome (set_iter : gset Z → list Z)
    (greedy_color : Nx.Graph → string → gmap Z Py.label)
    (min_vertex_coloring :
       Nx.Graph → option Z → option Z → Z → Z → gmap Z Py.label)
    (grid : string) (use_dwave : bool) (max_iter convergence : Z) :
  (Sudoku.solve set_iter greedy_color min_vertex_coloring
     grid use_dwave max_iter convergence = Py.raise Py.ValueError ↔
   ∃ c, c ∈ list_ascii_of_string grid ∧
        (Py.ord c = 178 ∨ Py.ord c = 179 ∨ Py.ord c = 185)) ∧
  (Sudoku.solve set_iter greedy_color min_vertex_coloring
     grid use_dwave max_iter convergence = Py.raise Py.ValueError ∨
   ∃ rows n,
     Sudoku.solve set_iter greedy_color min_vertex_coloring
       grid use_dwave max_iter convergence = mret (rows, n) ∧
     length rows = 9%nat ∧ Forall (λ r, length r = 9%nat) rows ∧
     0 ≤ n ≤ 810 ∧ Sudoku.cost (concat rows) = mret n) ∧
  ((∀ s, set_iter s ≡ₚ elements s) →
   ∀ rows n,
     Sudoku.solve set_iter greedy_color min_vertex_coloring
       grid use_dwave max_iter convergence = mret (rows, n) →
     Forall (Forall (λ d, 1 ≤ d ≤ 9)) rows).
Proof.
  destruct (board_cases (list_ascii_of_string grid)) as [Hok | Hbad].
  - destruct (real_clues_ok _ 0 Hok) as (real & Hreal & _).
    assert (∃ clues, Sudoku.make_clues set_iter grid = mret clues)
      as [clues Hclues].
    { unfold Sudoku.make_clues. rewrite Hreal. by eexists. }
    destruct (solve_after_clues set_iter greedy_color min_vertex_coloring
                grid use_dwave max_iter convergence clues Hclues)
      as (n & Hcost & Hn & ->).
    revert Hcost.
    generalize (if use_dwave
                then min_vertex_coloring (Sudoku.make_sudoku_graph clues)
                       (Some 9) (Some 9) max_iter convergence
                else greedy_color (Sudoku.make_sudoku_graph clues)
                       "saturation_largest_first").
    intros coloring Hcost.
    split; [|split].
    + split; [done|]. intros (c & Hin & Hc%superscript_digit).
      destruct Hc as [Hdig Hdec]. rewrite (Hok c Hin Hdig) in Hdec. done.
    + right. eexists _, n. split; [done|].
      rewrite disp9_rows, length_fmap, length_seq. split; [done|].
      split; [apply rows_length; rewrite decode_length; lia|].
      split; [done|].
      rewrite rows_concat, take_ge by (rewrite decode_length; lia).
      exact Hcost.
    + intros Hiter rows n' [= <- _]. rewrite disp9_rows.
      apply Forall_forall. intros r Hr. apply Forall_forall. intros d Hd.
      apply (rows_entries 9 9 _ r d Hr) in Hd.
      apply decode_entries in Hd as [-> | (x & Hx)]; [lia|].
      by apply (make_clues_digits set_iter grid clues Hiter Hclues x d).
  - assert (Sudoku.solve set_iter greedy_color min_vertex_coloring
              grid use_dwave max_iter convergence = Py.raise Py.ValueError)
      as ->.
    { unfold Sudoku.solve, Sudoku.make_clues.
      by rewrite real_clues_raise. }
    split; [|split; [by left | done]]. split; [|done]. intros _.
    destruct Hbad as (c & Hin & Hc). exists c. split; [done|].
    by apply superscript_digit.
Qed.

(** X14.  [solve] is sound for a good oracle.  If the selected oracle
    returns a proper colouring of the constraint graph with at most nine
    colours, [solve] prints cost 0, and the printed rows, read in order,
    keep every digit of the grid at its place. *)
Theorem solve_sound (set_iter : gset Z → list Z)
    (greedy_color : Nx.Graph → string → gmap Z Py.label)
    (min_vertex_coloring :
       Nx.Graph → option Z → option Z → Z → Z → gmap Z Py.label)
    (grid : string) (use_dwave : bool) (max_iter convergence : Z)
    (clues : list clue) (palette : list Py.label) :
  (∀ s, set_iter s ≡ₚ elements s) →
  Sudoku.make_clues set_iter grid = mret clues →
  (length palette ≤ 9)%nat →
  (∀ u, u ∈ Nx.nodes (Sudoku.make_sudoku_graph clues) →
        ∃ c, (if use_dwave
              then min_vertex_coloring (Sudoku.make_sudoku_graph clues)
                     (Some 9) (Some 9) max_iter convergence
              else greedy_color (Sudoku.make_sudoku_graph clues)
                     "saturation_largest_first") !! u = Some c
             ∧ c ∈ palette) →
  (∀ u v, Nx.has_edge (Sudoku.make_sudoku_graph clues) u v →
          (if use_dwave
           then min_vertex_coloring (Sudoku.make_sudoku_graph clues)
                  (Some 9) (Some 9) max_iter convergence
           else greedy_color (Sudoku.make_sudoku_graph clues)
                  "saturation_largest_first") !! u
          ≠ (if use_dwave
             then min_vertex_coloring (Sudoku.make_sudoku_graph clues)
                    (Some 9) (Some 9) max_iter convergence
             else greedy_color (Sudoku.make_sudoku_graph clues)
                    "saturation_largest_first") !! v) →
  ∃ rows,
    Sudoku.solve set_iter greedy_color min_vertex_coloring
      grid use_dwave max_iter convergence = mret (rows, 0) ∧
    ∀ i c d, 0 ≤ i < 81 →
             list_ascii_of_string grid !! Z.to_nat i = Some c →
             Py.isdigit c = true → c ≠ "0"%char → Py.int c = mret d →
             concat rows !! Z.to_nat i = Some d.
Proof.
  intros Hiter Hclues Hpal Hnodes Hproper.
  destruct (solve_after_clues set_iter greedy_color min_vertex_coloring
              grid use_dwave max_iter convergence clues Hclues)
    as (n & Hcost & _ & ->).
  destruct (decode9_proper _ clues palette
              (make_clues_cover set_iter grid clues Hiter Hclues)
              Hpal Hnodes Hproper) as (Hzero & Hkept & _).
  rewrite Hzero in Hcost. injection Hcost as <-.
  eexists. split; [done|]. intros i c d Hi Hc Hdig Hnz Hint.
  rewrite disp9_rows, rows_concat.
  pose proof (Hkept i d (make_clues_real set_iter grid clues i c d
                           Hclues (proj1 Hi) Hc Hdig Hnz Hint) Hi) as Hget.
  rewrite getitem_in_range in Hget by (rewrite decode_length; lia).
  injection Hget as <-.
  rewrite lookup_take_lt by lia.
  apply list_lookup_lookup_total_lt. rewrite decode_length. lia.
Qed.

(** The classic puzzle of [sudoku.py] with an oracle that returns its
    solution as a colouring. *)
Section SolvedPuzzle.

Local Abbreviation solved :=
  [5;3;4;6;7;8;9;1;2;  6;7;2;1;9;5;3;4;8;  1;9;8;3;4;2;5;6;7;
   8;5;9;7;6;1;4;2;3;  4;2;6;8;5;3;7;9;1;  7;1;3;9;2;4;8;5;6;
   9;6;1;5;3;7;2;8;4;  2;8;7;4;1;9;6;3;5;  3;4;5;2;8;6;1;7;9].
Local Abbreviation solved_colouring :=
  (list_to_map (zip (seqZ 0 81) (Py.LInt <$> solved)) : gmap Z Py.label).
Local Abbreviation puzzle :=
  "53..7....6..195....98....6.8...6...34..8.3..17...2...6.6....28....419..5....8..79"%string.
Local Abbreviation puzzle_clues :=
  ([(0, 5); (1, 3); (4, 7); (9, 6); (12, 1); (13, 9); (14, 5); (19, 9);
    (20, 8); (25, 6); (27, 8); (31, 6); (35, 3); (36, 4); (39, 8); (41, 3);
    (44, 1); (45, 7); (49, 2); (53, 6); (55, 6); (60, 2); (61, 8); (66, 4);
    (67, 1); (68, 9); (71, 5); (76, 8); (79, 7); (80, 9)] : list clue).

Lemma puzzle_make_clues :
  Sudoku.make_clues elements puzzle = mret puzzle_clues.
Proof. vm_compute. reflexivity. Qed.

Lemma puzzle_clues_solved x v :
  (x, v) ∈ puzzle_clues →
  0 ≤ x < 81 ∧ solved_colouring !! x = Some (Py.LInt v).
Proof.
  intros Hxv.
  repeat (apply elem_of_cons in Hxv as [Hxv|Hxv];
          [injection Hxv as -> ->; split; [lia | vm_compute; reflexivity]|]).
  by apply elem_of_nil in Hxv.
Qed.

Lemma puzzle_nodes u :
  u ∈ Nx.nodes (Sudoku.make_sudoku_graph puzzle_clues) →
  ∃ c, solved_colouring !! u = Some c ∧ c ∈ Py.LInt <$> seqZ 1 9.
Proof.
  intros Hu.
  assert (0 ≤ u < 81) as Hrange.
  { apply graph9_node_cases in Hu as [Hu | (y & Hin)]; [exact Hu|].
    apply puzzle_clues_solved in Hin. lia. }
  clear Hu. destruct (solved_cells u Hrange) as (n & Hn & Hn9).
  exists (Py.LInt n).
  split; [exact Hn|]. apply list_elem_of_fmap_2, elem_of_seqZ. lia.
Qed.

Lemma puzzle_edges u v :
  Nx.has_edge (Sudoku.make_sudoku_graph puzzle_clues) u v →
  solved_colouring !! u ≠ solved_colouring !! v.
Proof.
  intros [(Hu & Hv & Hadj) | (y1 & y2 & H1 & H2 & Hne)]%graph9_edge_cases.
  - exact (solved_proper u v Hu Hv Hadj).
  - apply puzzle_clues_solved in H1 as [_ ->].
    apply puzzle_clues_solved in H2 as [_ ->]. congruence.
Qed.

Lemma solve_sound_witness :
  ∃ rows,
    Sudoku.solve elements (λ _ _, solved_colouring)
      (λ _ _ _ _ _, solved_colouring) puzzle false 10 3 = mret (rows, 0) ∧
    ∀ i c d, 0 ≤ i < 81 →
             list_ascii_of_string puzzle !! Z.to_nat i = Some c →
             Py.isdigit c = true → c ≠ "0"%char → Py.int c = mret d →
             concat rows !! Z.to_nat i = Some d.
Proof.
  exact (solve_sound elements (λ _ _, solved_colouring)
           (λ _ _ _ _ _, solved_colouring) puzzle false 10 3
           puzzle_clues (Py.LInt <$> seqZ 1 9)
           (λ s, reflexivity (elements s))
           puzzle_make_clues palette9_length puzzle_nodes puzzle_edges).
Defined.

Lemma puzzle_solve :
  Sudoku.solve elements (λ _ _, solved_colouring)
    (λ _ _ _ _ _, solved_colouring) puzzle false 10 3
  = mret (Sudoku.disp solved, 0).
Proof. vm_compute. reflexivity. Qed.

Lemma solve_outcome_witness :
  Forall (Forall (λ d, 1 ≤ d ≤ 9)) (Sudoku.disp solved).
Proof.
  exact (proj2 (proj2 (solve_outcome elements (λ _ _, solved_colouring)
                         (λ _ _ _ _ _, solved_colouring) puzzle false 10 3))
           (λ s, reflexivity (elements s)) (Sudoku.disp solved) 0
           puzzle_solve).
Defined.

End SolvedPuzzle.

(** ** The 4x4 pipeline *)

Section ProperColouring4.

Implicit Types (coloring : gmap Z Py.label) (clues : list clue).
Implicit Types (palette : list Py.label).

Lemma graph4_node_cases clues u :
  u ∈ Nx.nodes (Sudoku4.make_sudoku_graph clues) →
  0 ≤ u < 16 ∨ ∃ y, (u, y) ∈ clues.
Proof.
  unfold Sudoku4.make_sudoku_graph. cbv zeta.
  change Sudoku4.add_clue_edges with Sudoku.add_clue_edges.
  intros [Hu | (y & _ & _ & Hin & _)]%nodes_add_clue_edges.
  - left. apply grid_nodes in Hu;
      [exact Hu | apply adjacent4_sym | apply adjacent4_neighbour
      | apply adjacent4_irrefl].
  - right. by exists y.
Qed.

Lemma graph4_edge_cases clues u v :
  Nx.has_edge (Sudoku4.make_sudoku_graph clues) u v →
  (0 ≤ u < 16 ∧ 0 ≤ v < 16 ∧ Sudoku4.adjacent u v = true) ∨
  (∃ y1 y2, (u, y1) ∈ clues ∧ (v, y2) ∈ clues ∧ y1 ≠ y2).
Proof.
  unfold Nx.has_edge, Sudoku4.make_sudoku_graph. cbv zeta.
  change Sudoku4.add_clue_edges with Sudoku.add_clue_edges.
  intros [Hedge | Hclue]%clue_edges; [left | by right].
  apply grid_edges in Hedge;
    [exact Hedge | apply adjacent4_sym | apply adjacent4_irrefl].
Qed.

(** A proper colouring with at most four colours, of the graph of clues
    that carry every digit of 1..4, is decoded without error to a grid
    with different digits on adjacent cells and the clues in place. *)
Lemma decode4_proper coloring clues palette :
  (∀ v, 1 ≤ v ≤ 4 → ∃ x, (x, v) ∈ clues) →
  (length palette ≤ 4)%nat →
  (∀ u, u ∈ Nx.nodes (Sudoku4.make_sudoku_graph clues) →
        ∃ c, coloring !! u = Some c ∧ c ∈ palette) →
  (∀ u v, Nx.has_edge (Sudoku4.make_sudoku_graph clues) u v →
          coloring !! u ≠ coloring !! v) →
  ∃ solution,
    Sudoku4.decode coloring clues = mret (Sudoku4.disp solution) ∧
    length solution = 16%nat ∧
    (∀ i j, 0 ≤ i < 16 → 0 ≤ j < 16 → Sudoku4.adjacent i j = true →
            solution !! Z.to_nat i ≠ solution !! Z.to_nat j) ∧
    (∀ i v, (i, v) ∈ clues → 0 ≤ i < 16 → Py.getitem solution i = mret v).
Proof.
  intros Hcover Hpal Hnodes Hproper.
  assert (∀ i j, 0 ≤ i < 16 → 0 ≤ j < 16 → Sudoku4.adjacent i j = true →
                 coloring !! i ≠ coloring !! j) as Hgrid.
  { intros i j Hi Hj Hadj. apply Hproper. unfold Nx.has_edge.
    unfold Sudoku4.make_sudoku_graph. cbv zeta.
    change Sudoku4.add_clue_edges with Sudoku.add_clue_edges.
    apply clue_edges. left.
    apply grid_edges; [apply adjacent4_sym | apply adjacent4_irrefl | done]. }
  assert (∀ i, 0 ≤ i < 16 → ∃ c, coloring !! i = Some c ∧ c ∈ palette)
    as Hcells.
  { intros i Hi. apply Hnodes.
    unfold Sudoku4.make_sudoku_graph. cbv zeta.
    change Sudoku4.add_clue_edges with Sudoku.add_clue_edges.
    apply nodes_add_clue_edges. left.
    apply grid_nodes;
      [apply adjacent4_sym | apply adjacent4_neighbour
      | apply adjacent4_irrefl | done]. }
  unfold Sudoku4.make_sudoku_graph in Hnodes, Hproper.
  cbv zeta in Hnodes, Hproper.
  change Sudoku4.add_clue_edges with Sudoku.add_clue_edges in Hnodes, Hproper.
  assert (∃ x1 x2, (x1, 1) ∈ clues ∧ (x2, 2) ∈ clues) as Htwo.
  { destruct (Hcover 1) as [x1 ?]; [lia|]. destruct (Hcover 2) as [x2 ?]; [lia|].
    by exists x1, x2. }
  destruct (proper_on_clues coloring clues palette _ Htwo Hnodes Hproper)
    as [Hcol Hdiff].
  clear Hnodes Hproper Htwo.
  assert (NoDup (seqZ 1 4)) as Hnd by apply NoDup_seqZ.
  assert (∀ v, v ∈ seqZ 1 4 → ∃ x, (x, v) ∈ clues) as Hcover'.
  { intros v Hv%elem_of_seqZ. apply Hcover. lia. }
  assert (length palette ≤ length (seqZ 1 4))%nat as Hpal'
    by (rewrite length_seqZ; lia).
  set (tbl := Sudoku.decode_lookup coloring clues).
  assert (∀ i, 0 ≤ i < 16 →
            ∃ c w, coloring !! i = Some c ∧ c ∈ palette ∧ tbl !! c = Some w)
    as Hcell.
  { intros i Hi. destruct (Hcells i Hi) as (c & Hc & Hp).
    destruct (palette_decoded coloring clues palette (seqZ 1 4)
                Hnd Hcover' Hpal' Hcol Hdiff c Hp) as (w & x & ? & _).
    by exists c, w. }
  remember ((λ i, default 0 (coloring !! i ≫= λ col, tbl !! col))
              <$> Py.range 16) as solution eqn:Hsol.
  assert (∀ i, 0 ≤ i < 16 →
            solution !! Z.to_nat i
            = Some (default 0 (coloring !! i ≫= λ col, tbl !! col))) as Hlook.
  { intros i Hi. rewrite Hsol. unfold Py.range.
    rewrite list_lookup_fmap, lookup_seqZ_lt by lia. cbn [fmap option_fmap option_map].
    by rewrite Z.add_0_l, Z2Nat.id by lia. }
  assert (length solution = 16%nat) as Hlen.
  { rewrite Hsol. unfold Py.range. by rewrite length_fmap, length_seqZ. }
  exists solution. split; [|split; [done|split]].
  - unfold Sudoku4.decode.
    rewrite decode4_lookup_ok
      by (intros x y Hxy; destruct (Hcol x y Hxy) as (c & -> & _); by eexists).
    rewrite result_bind_ret. fold tbl.
    rewrite solution4_ok.
    + rewrite <- Hsol, result_bind_ret. reflexivity.
    + intros i Hi. destruct (Hcell i Hi) as (c & w & Hc & _ & Hw).
      exists c. split; [done | by exists w].
  - intros i j Hi Hj Hadj. rewrite !Hlook by done.
    destruct (Hcell i Hi) as (ci & wi & Hci & Hpi & Hwi).
    destruct (Hcell j Hj) as (cj & wj & Hcj & Hpj & Hwj).
    rewrite Hci, Hcj. cbn. rewrite Hwi, Hwj. cbn. intros [= <-].
    apply (colours_decoded_apart coloring clues palette (seqZ 1 4)
             Hnd Hcover' Hpal' Hcol Hdiff ci cj wi); [done..| |done|done].
    intros <-. apply (Hgrid i j Hi Hj Hadj). by rewrite Hci, Hcj.
  - intros i v Hclue Hi. rewrite getitem_in_range by lia.
    rewrite (list_lookup_total_correct _ _ _ (Hlook i Hi)).
    destruct (clue_decoded coloring clues palette (seqZ 1 4)
                Hnd Hcover' Hpal' Hcol Hdiff i v Hclue) as (c & Hc & Hv).
    rewrite Hc. cbn. fold tbl in Hv. by rewrite Hv.
Qed.

End ProperColouring4.

(** X15.  The 4x4 reduction is sound: for a clue list that carries every
    digit of 1..4 and a proper colouring of its constraint graph with at
    most four colours, the strict decoder does not raise; adjacent cells
    of the decoded grid hold different digits and every clue is decoded
    to its own digit. *)
Theorem proper_colouring_decoded4
    (coloring : gmap Z Py.label) (clues : list clue) (palette : list Py.label) :
  (∀ v, 1 ≤ v ≤ 4 → ∃ x, (x, v) ∈ clues) →
  (length palette ≤ 4)%nat →
  (∀ u, u ∈ Nx.nodes (Sudoku4.make_sudoku_graph clues) →
        ∃ c, coloring !! u = Some c ∧ c ∈ palette) →
  (∀ u v, Nx.has_edge (Sudoku4.make_sudoku_graph clues) u v →
          coloring !! u ≠ coloring !! v) →
  ∃ solution,
    Sudoku4.decode coloring clues = mret (Sudoku4.disp solution) ∧
    length solution = 16%nat ∧
    (∀ i j, 0 ≤ i < 16 → 0 ≤ j < 16 → Sudoku4.adjacent i j = true →
            solution !! Z.to_nat i ≠ solution !! Z.to_nat j) ∧
    (∀ i v, (i, v) ∈ clues → 0 ≤ i < 16 → Py.getitem solution i = mret v).
Proof.
  intros Hcover Hpal Hnodes Hproper.
  exact (decode4_proper coloring clues palette Hcover Hpal Hnodes Hproper).
Qed.

(** X16.  [main] with a good oracle: when the oracle returns a proper
    colouring with at most four colours of the graph of the five clues of
    [main], [main] prints a grid without raising, with different digits
    on adjacent cells and the clues 4, 1, 2, 3, 4 at the cells 0, 2, 7, 8
    and 13. *)
Theorem main_sound
    (min_vertex_coloring :
       Nx.Graph → option Z → option Z → Z → Z → gmap Z Py.label)
    (palette : list Py.label) :
  (length palette ≤ 4)%nat →
  (∀ u, u ∈ Nx.nodes (Sudoku4.make_sudoku_graph
                        [(0, 4); (2, 1); (7, 2); (8, 3); (13, 4)]) →
        ∃ c, min_vertex_coloring
               (Sudoku4.make_sudoku_graph
                  [(0, 4); (2, 1); (7, 2); (8, 3); (13, 4)])
               None (Some 4) 10 3 !! u = Some c ∧ c ∈ palette) →
  (∀ u v, Nx.has_edge (Sudoku4.make_sudoku_graph
                         [(0, 4); (2, 1); (7, 2); (8, 3); (13, 4)]) u v →
          min_vertex_coloring
            (Sudoku4.make_sudoku_graph
               [(0, 4); (2, 1); (7, 2); (8, 3); (13, 4)])
            None (Some 4) 10 3 !! u
          ≠ min_vertex_coloring
              (Sudoku4.make_sudoku_graph
                 [(0, 4); (2, 1); (7, 2); (8, 3); (13, 4)])
              None (Some 4) 10 3 !! v) →
  ∃ solution,
    Sudoku4.main min_vertex_coloring = mret (Sudoku4.disp solution) ∧
    length solution = 16%nat ∧
    (∀ i j, 0 ≤ i < 16 → 0 ≤ j < 16 → Sudoku4.adjacent i j = true →
            solution !! Z.to_nat i ≠ solution !! Z.to_nat j) ∧
    Py.getitem solution 0 = mret 4 ∧ Py.getitem solution 2 = mret 1 ∧
    Py.getitem solution 7 = mret 2 ∧ Py.getitem solution 8 = mret 3 ∧
    Py.getitem solution 13 = mret 4.
Proof.
  intros Hpal Hnodes Hproper.
  assert (∀ v, 1 ≤ v ≤ 4 →
               ∃ x, (x, v) ∈ [(0, 4); (2, 1); (7, 2); (8, 3); (13, 4)])
    as Hcover.
  { intros v Hv. assert (Hin : v ∈ seqZ 1 4) by (apply elem_of_seqZ; lia).
    clear -Hin. cbv in Hin.
    repeat (apply elem_of_cons in Hin as [-> | Hin];
            [eexists; by repeat constructor|]).
    by apply elem_of_nil in Hin. }
  destruct (decode4_proper _ _ palette Hcover Hpal Hnodes Hproper)
    as (solution & Hdec & Hlen & Hadj & Hclues).
  exists solution. split; [exact Hdec|]. split; [exact Hlen|].
  split; [exact Hadj|].
  repeat split; apply Hclues; (by repeat constructor) || lia.
Qed.

(** A solved 4x4 grid taken as a colouring, with the clues of [main]. *)
Section SolvedGrid4.

Local Abbreviation solved4 :=
  [4; 2; 1; 3;  1; 3; 4; 2;  3; 1; 2; 4;  2; 4; 3; 1].
Local Abbreviation solved4_colouring :=
  (list_to_map (zip (seqZ 0 16) (Py.LInt <$> solved4)) : gmap Z Py.label).
Local Abbreviation main_clues :=
  ([(0, 4); (2, 1); (7, 2); (8, 3); (13, 4)] : list clue).

Lemma solved4_cells u :
  0 ≤ u < 16 → ∃ n, solved4_colouring !! u = Some (Py.LInt n) ∧ 1 ≤ n ≤ 4.
Proof.
  intros Hu.
  assert (forallb (λ u, match solved4_colouring !! u with
                        | Some (Py.LInt n) => (1 <=? n) && (n <=? 4)
                        | _ => false
                        end) (seqZ 0 16) = true) as Hall
    by (vm_compute; reflexivity).
  rewrite forallb_forall in Hall.
  assert (In u (seqZ 0 16)) as Hin
    by (apply list_elem_of_In, elem_of_seqZ; lia).
  apply Hall in Hin. revert Hin.
  generalize (solved4_colouring !! u). intros [[n|]|] Hin; try discriminate.
  exists n. split; [reflexivity | lia].
Qed.

Lemma solved4_proper u v :
  0 ≤ u < 16 → 0 ≤ v < 16 → Sudoku4.adjacent u v = true →
  solved4_colouring !! u ≠ solved4_colouring !! v.
Proof.
  intros Hu Hv Hadj.
  assert (forallb (λ u, forallb (λ v,
            implb (Sudoku4.adjacent u v)
                  match solved4_colouring !! u, solved4_colouring !! v with
                  | Some (Py.LInt n), Some (Py.LInt m) => negb (n =? m)
                  | _, _ => false
                  end) (seqZ 0 16)) (seqZ 0 16) = true) as Hall
    by (vm_compute; reflexivity).
  rewrite forallb_forall in Hall.
  assert (In u (seqZ 0 16)) as Hin
    by (apply list_elem_of_In, elem_of_seqZ; lia).
  apply Hall in Hin. rewrite forallb_forall in Hin.
  assert (In v (seqZ 0 16)) as Hin'
    by (apply list_elem_of_In, elem_of_seqZ; lia).
  apply Hin in Hin'. rewrite Hadj in Hin'. revert Hin'.
  generalize (solved4_colouring !! u) (solved4_colouring !! v).
  intros [[n|]|] [[m|]|]; cbn [implb]; try discriminate.
  intros Hnm%negb_true_iff%Z.eqb_neq. congruence.
Qed.

Lemma main_clues_solved x v :
  (x, v) ∈ main_clues →
  0 ≤ x < 16 ∧ solved4_colouring !! x = Some (Py.LInt v).
Proof.
  intros Hxv.
  repeat (apply elem_of_cons in Hxv as [Hxv|Hxv];
          [injection Hxv as -> ->; split; [lia | vm_compute; reflexivity]|]).
  by apply elem_of_nil in Hxv.
Qed.

Lemma main_clues_cover v : 1 ≤ v ≤ 4 → ∃ x, (x, v) ∈ main_clues.
Proof.
  intros Hv. assert (Hin : v ∈ seqZ 1 4) by (apply elem_of_seqZ; lia).
  clear Hv. cbv in Hin.
  repeat (apply elem_of_cons in Hin as [-> | Hin];
          [eexists; by repeat constructor|]).
  by apply elem_of_nil in Hin.
Qed.

Lemma main_nodes u :
  u ∈ Nx.nodes (Sudoku4.make_sudoku_graph main_clues) →
  ∃ c, solved4_colouring !! u = Some c ∧ c ∈ Py.LInt <$> seqZ 1 4.
Proof.
  intros Hu.
  assert (0 ≤ u < 16) as Hrange.
  { apply graph4_node_cases in Hu as [Hu | (y & Hin)]; [exact Hu|].
    apply main_clues_solved in Hin. lia. }
  clear Hu. destruct (solved4_cells u Hrange) as (n & Hn & Hn4).
  exists (Py.LInt n).
  split; [exact Hn|]. apply list_elem_of_fmap_2, elem_of_seqZ. lia.
Qed.

Lemma main_edges u v :
  Nx.has_edge (Sudoku4.make_sudoku_graph main_clues) u v →
  solved4_colouring !! u ≠ solved4_colouring !! v.
Proof.
  intros [(Hu & Hv & Hadj) | (y1 & y2 & H1 & H2 & Hne)]%graph4_edge_cases.
  - exact (solved4_proper u v Hu Hv Hadj).
  - apply main_clues_solved in H1 as [_ ->].
    apply main_clues_solved in H2 as [_ ->]. congruence.
Qed.

Lemma palette4_length : (length (Py.LInt <$> seqZ 1 4) ≤ 4)%nat.
Proof. rewrite length_fmap, length_seqZ. lia. Qed.

Lemma proper_colouring_decoded4_witness :
  ∃ solution,
    Sudoku4.decode solved4_colouring main_clues
    = mret (Sudoku4.disp solution) ∧
    length solution = 16%nat ∧
    (∀ i j, 0 ≤ i < 16 → 0 ≤ j < 16 → Sudoku4.adjacent i j = true →
            solution !! Z.to_nat i ≠ solution !! Z.to_nat j) ∧
    (∀ i v, (i, v) ∈ main_clues → 0 ≤ i < 16 →
            Py.getitem solution i = mret v).
Proof.
  exact (proper_colouring_decoded4 solved4_colouring main_clues
           (Py.LInt <$> seqZ 1 4)
           main_clues_cover palette4_length main_nodes main_edges).
Defined.

Lemma main_sound_witness :
  ∃ solution,
    Sudoku4.main (λ _ _ _ _ _, solved4_colouring)
    = mret (Sudoku4.disp solution) ∧
    length solution = 16%nat ∧
    (∀ i j, 0 ≤ i < 16 → 0 ≤ j < 16 → Sudoku4.adjacent i j = true →
            solution !! Z.to_nat i ≠ solution !! Z.to_nat j) ∧
    Py.getitem solution 0 = mret 4 ∧ Py.getitem solution 2 = mret 1 ∧
    Py.getitem solution 7 = mret 2 ∧ Py.getitem solution 8 = mret 3 ∧
    Py.getitem solution 13 = mret 4.
Proof.
  exact (main_sound (λ _ _ _ _ _, solved4_colouring) (Py.LInt <$> seqZ 1 4)
           palette4_length main_nodes main_edges).
Defined.

End SolvedGrid4.
